(** * http-errors: the error factory, its object pool and the lazy stack

    A shallow embedding of [src/index.js].  JavaScript values, objects and
    the module-level state ([errorPool], the capture primitive, the
    deprecation sink) are modelled explicitly; every function of the source
    is a Rocq function of the same name that threads that state.

    What the model covers:
    - values of every [typeof]; numbers are the integers and [NaN];
    - objects with a prototype, own data properties (writable, configurable,
      enumerable or not) and the one accessor the source defines, the lazy
      [stack]; objects are extensible, so no read, write or delete throws;
    - the prototype chain of plain objects, generic errors, the abstract
      [HttpError] and the generated constructors; the function-valued
      members of the built-in prototypes are left out, and the tables
      ([errorPool], [statuses.message], the exports) are read by their own
      keys only;
    - the three collaborators of the source as parameters. *)

From Stdlib Require Import Ascii.
From stdpp Require Import gmap strings list pretty.

Open Scope string_scope.
Open Scope list_scope.
Open Scope nat_scope.

(** ** JavaScript values *)

Module Js.

(** A heap address. *)
Abbreviation loc := nat (only parsing).

(** Numbers.  Status codes are integers; [NaN] is kept because it is the one
    number on which every comparison of the source is false and which is not
    [===] to itself.  A fractional or infinite number takes the same branches
    of the source as an integer that the tables do not know, and is left out. *)
Inductive number :=
| Int (z : Z)
| NaN.

Inductive value :=
| VUndefined
| VNull
| VBoolean (b : bool)
| VNumber (n : number)
| VString (s : string)
| VBigInt (z : Z)
| VSymbol (id : nat)
| VFunction (id : nat)
| VObject (l : loc).

(** [typeof v] *)
Definition typeof (v : value) : string :=
  match v with
  | VUndefined => "undefined"
  | VNull => "object"
  | VBoolean _ => "boolean"
  | VNumber _ => "number"
  | VString _ => "string"
  | VBigInt _ => "bigint"
  | VSymbol _ => "symbol"
  | VFunction _ => "function"
  | VObject _ => "object"
  end.

(** [n < z] and [n >= z] against an integer literal. *)
Definition less_than (n : number) (z : Z) : bool :=
  match n with Int x => bool_decide (x < z)%Z | NaN => false end.

Definition at_least (n : number) (z : Z) : bool :=
  match n with Int x => bool_decide (z ≤ x)%Z | NaN => false end.

Definition number_eq (a b : number) : bool :=
  match a, b with
  | Int x, Int y => bool_decide (x = y)
  | _, _ => false
  end.

(** [a === b] *)
Definition strict_eq (a b : value) : bool :=
  match a, b with
  | VUndefined, VUndefined => true
  | VNull, VNull => true
  | VBoolean x, VBoolean y => bool_decide (x = y)
  | VNumber x, VNumber y => number_eq x y
  | VString x, VString y => String.eqb x y
  | VBigInt x, VBigInt y => bool_decide (x = y)
  | VSymbol x, VSymbol y => bool_decide (x = y)
  | VFunction x, VFunction y => bool_decide (x = y)
  | VObject x, VObject y => bool_decide (x = y)
  | _, _ => false
  end.

(** Truthiness, as [!v], [v || w] and [if (v)] read it. *)
Definition truthy (v : value) : bool :=
  match v with
  | VUndefined | VNull => false
  | VBoolean b => b
  | VNumber (Int z) => negb (bool_decide (z = 0%Z))
  | VNumber NaN => false
  | VString s => negb (String.eqb s EmptyString)
  | VBigInt z => negb (bool_decide (z = 0%Z))
  | VSymbol _ | VFunction _ | VObject _ => true
  end.

(** [a || b] *)
Definition logical_or (a b : value) : value := if truthy a then a else b.

(** [v != null] *)
Definition not_nullish (v : value) : bool :=
  match v with VUndefined | VNull => false | _ => true end.

(** [String(n)] for a number: the decimal numeral ([pretty]), which is what
    the engine prints for every integer below 10^21. *)
Definition number_to_String (n : number) : string :=
  match n with Int z => pretty z | NaN => "NaN" end.

(** [String(v)], also the property key [v] indexes with.  An object, a
    function and a symbol are given a text that names no entry of the tables
    of this program. *)
Definition to_String (v : value) : string :=
  match v with
  | VUndefined => "undefined"
  | VNull => "null"
  | VBoolean true => "true"
  | VBoolean false => "false"
  | VNumber n => number_to_String n
  | VString s => s
  | VBigInt z => pretty z
  | VSymbol _ => "Symbol()"
  | VFunction _ => "function () { [native code] }"
  | VObject _ => "[object Object]"
  end.

Definition of_option (o : option string) : value :=
  match o with Some s => VString s | None => VUndefined end.

(** [s.charAt(0)] *)
Definition charAt0 (s : string) : string :=
  match s with
  | EmptyString => EmptyString
  | String c _ => String c EmptyString
  end.

Definition digit (c : ascii) : option Z :=
  let n := Z.of_nat (nat_of_ascii c) in
  if bool_decide (48 ≤ n ≤ 57)%Z then Some (n - 48)%Z else None.

Fixpoint digits (acc : Z) (s : string) : option Z :=
  match s with
  | EmptyString => Some acc
  | String c rest =>
      match digit c with
      | Some d => digits (10 * acc + d)%Z rest
      | None => None
      end
  end.

(** [Number(s)] on the texts [codeClass] builds: a run of decimal digits,
    with or without a leading minus sign; anything else is [NaN].  The
    negative zero of [Number('-00')] indexes and compares as [0]. *)
Definition Number (s : string) : number :=
  match s with
  | EmptyString => Int 0
  | String "-"%char (String c rest) =>
      match digits 0 (String c rest) with
      | Some z => Int (- z)
      | None => NaN
      end
  | _ =>
      match digits 0 s with
      | Some z => Int z
      | None => NaN
      end
  end.

(** ** Objects *)

(** The two flavours of generated constructor. *)
Inductive kind := Client | Server.

(** What an object inherits from: [Object.prototype] (a plain object, an
    array, anything that is no [Error]), [Error.prototype] (a generic error),
    the prototype of the abstract [HttpError], or the prototype of the
    constructor generated for a status code. *)
Inductive prototype :=
| ObjectPrototype
| ErrorPrototype
| HttpErrorPrototype
| VariantPrototype (k : kind) (code : Z).

(** An own data property; every property of the model is writable and
    configurable, objects are extensible. *)
Record property := Property { p_value : value; p_enumerable : bool }.

(** The own [stack] property: absent, a stored value, or the accessor pair
    that a generated constructor installs, together with the two variables
    [stackValue] and [stackCaptured] its getter and setter close over. *)
Inductive stack_slot :=
| NoStack
| StackValue (v : value) (enumerable : bool)
| StackGetter (stackValue : value) (stackCaptured : bool).

(** An object: its prototype, its own properties other than [stack] in
    creation order, and its [stack]. *)
Record object := Object {
  o_proto : prototype;
  o_props : list (string * property);
  o_stack : stack_slot
}.

Definition is_stack (k : string) : bool := String.eqb k "stack".

Fixpoint own_lookup (k : string) (ps : list (string * property)) : option property :=
  match ps with
  | [] => None
  | (k', p) :: rest => if String.eqb k' k then Some p else own_lookup k rest
  end.

(** [Object.defineProperty(o, k, {value, enumerable, ...})]: redefine in
    place, or add last. *)
Fixpoint own_define (k : string) (p : property) (ps : list (string * property))
  : list (string * property) :=
  match ps with
  | [] => [(k, p)]
  | (k', p') :: rest =>
      if String.eqb k' k then (k, p) :: rest else (k', p') :: own_define k p rest
  end.

(** [o[k] = v] on the own properties: the value changes and the attributes
    stay, or a new enumerable property is added. *)
Definition own_store (k : string) (v : value) (ps : list (string * property))
  : list (string * property) :=
  match own_lookup k ps with
  | Some p => own_define k (Property v (p_enumerable p)) ps
  | None => own_define k (Property v true) ps
  end.

Definition own_delete (k : string) (ps : list (string * property))
  : list (string * property) :=
  filter (λ kp, String.eqb kp.1 k = false) ps.

(** [Error.prototype]: [name] and [message], neither enumerable.  The
    function-valued members of the built-in prototypes are not modelled. *)
Definition error_prototype (k : string) : option property :=
  if String.eqb k "name" then Some (Property (VString "Error") false)
  else if String.eqb k "message" then Some (Property (VString EmptyString) false)
  else None.

(** The properties an object finds on its prototype chain.  A generated
    prototype carries [status], [statusCode] and [expose], assigned plainly
    and therefore enumerable (source lines 253-255 and 354-356). *)
Definition inherited (p : prototype) (k : string) : option property :=
  match p with
  | ObjectPrototype => None
  | ErrorPrototype | HttpErrorPrototype => error_prototype k
  | VariantPrototype kd code =>
      if String.eqb k "status" then Some (Property (VNumber (Int code)) true)
      else if String.eqb k "statusCode" then Some (Property (VNumber (Int code)) true)
      else if String.eqb k "expose" then
        Some (Property (VBoolean match kd with Client => true | Server => false end) true)
      else error_prototype k
  end.

Definition inherited_enumerable (p : prototype) : list string :=
  match p with
  | VariantPrototype _ _ => ["status"; "statusCode"; "expose"]
  | _ => []
  end.

(** [o[k]] for a key other than [stack]: own property first, then the
    prototype chain, else [undefined]. *)
Definition get (o : object) (k : string) : value :=
  match own_lookup k (o_props o) with
  | Some p => p_value p
  | None =>
      match inherited (o_proto o) k with
      | Some p => p_value p
      | None => VUndefined
      end
  end.

(** [o[k] = v].  On [stack] the assignment runs the setter when the accessor
    is installed ([stackValue = value; stackCaptured = true], lines 225-228),
    overwrites a stored value, or creates an ordinary enumerable property. *)
Definition assign (k : string) (v : value) (o : object) : object :=
  if is_stack k then
    Object (o_proto o) (o_props o)
      match o_stack o with
      | NoStack => StackValue v true
      | StackValue _ e => StackValue v e
      | StackGetter _ _ => StackGetter v true
      end
  else Object (o_proto o) (own_store k v (o_props o)) (o_stack o).

(** [Object.defineProperty(o, k, {value: v, enumerable: e, writable: true,
    configurable: true})] *)
Definition defineProperty (k : string) (v : value) (e : bool) (o : object) : object :=
  if is_stack k then Object (o_proto o) (o_props o) (StackValue v e)
  else Object (o_proto o) (own_define k (Property v e) (o_props o)) (o_stack o).

(** [delete o[k]]: removes an own property, stored value or accessor alike;
    nothing happens for an inherited one. *)
Definition delete_property (k : string) (o : object) : object :=
  if is_stack k then Object (o_proto o) (o_props o) NoStack
  else Object (o_proto o) (own_delete k (o_props o)) (o_stack o).

(** [setPrototypeOf(o, p)] *)
Definition setPrototypeOf (p : prototype) (o : object) : object :=
  Object p (o_props o) (o_stack o).

Definition has_own (o : object) (k : string) : bool :=
  if is_stack k then match o_stack o with NoStack => false | _ => true end
  else match own_lookup k (o_props o) with Some _ => true | None => false end.

(** The own enumerable keys.  [o_props] holds the properties other than
    [stack], so an entry under that name is not one. *)
Definition own_enumerable_keys (o : object) : list string :=
  (filter (λ kp, p_enumerable kp.2 = true ∧ is_stack kp.1 = false) (o_props o)).*1
  ++ match o_stack o with StackValue _ true => ["stack"] | _ => [] end.

(** The keys [for (key in o)] visits: the own enumerable ones, then the
    enumerable ones of the prototype chain that no own property shadows. *)
Definition for_in_keys (o : object) : list string :=
  own_enumerable_keys o
  ++ filter (λ k, has_own o k = false) (inherited_enumerable (o_proto o)).

(** [o[k]] where [k], when it is [stack], is a stored value: so it is for
    every key that [for (k in o)] produces, and right after a capture. *)
Definition get_stored (o : object) (k : string) : value :=
  if is_stack k then match o_stack o with StackValue v _ => v | _ => VUndefined end
  else get o k.

(** [o instanceof Error] *)
Definition is_Error (o : object) : bool :=
  match o_proto o with ObjectPrototype => false | _ => true end.

(** [o instanceof HttpError], the abstract base. *)
Definition is_HttpError (o : object) : bool :=
  match o_proto o with
  | HttpErrorPrototype | VariantPrototype _ _ => true
  | _ => false
  end.

End Js.

Import Js.

#[global] Instance kind_eq_dec : EqDecision kind.
Proof. solve_decision. Defined.

#[global] Instance prototype_eq_dec : EqDecision prototype.
Proof. solve_decision. Defined.

(** ** Collaborators

    What [src/index.js] requires and does not define: the reason phrases of
    the [statuses] package ([statuses.message], whose keys are
    [statuses.codes]), the identifier casing of [toidentifier], and the text
    the engine produces at its n-th call of [Error.captureStackTrace]. *)
Class Collaborators := {
  statuses : gmap Z string;
  toIdentifier : string → string;
  stack_text : nat → string
}.

(** ** Module state *)

(** The heap, the module variable [errorPool] (object keys are strings, each
    slot an array whose last element is the top), and two ghost fields: the
    number of [Error.captureStackTrace] calls so far and the messages handed
    to [deprecate]. *)
Record state := State {
  heap : list object;
  errorPool : gmap string (list loc);
  captures : nat;
  deprecations : list string
}.

(** Lines 25-31: the five pooled status codes, each with an empty array. *)
Definition initial_errorPool : gmap string (list loc) :=
  <["400" := []]> (<["401" := []]> (<["403" := []]> (<["404" := []]> (<["500" := []]> ∅)))).

(** Line 33. *)
Definition poolSize : nat := 10.

Definition initial_state : state := State [] initial_errorPool 0 [].

(** A new object; its address is the next free one. *)
Definition alloc (o : object) (st : state) : state * loc :=
  (State (heap st ++ [o])%list (errorPool st) (captures st) (deprecations st),
   length (heap st)).

Definition deref (st : state) (v : value) : option object :=
  match v with VObject l => heap st !! l | _ => None end.

(** [v[k]] for [k] other than [stack]. *)
Definition read (st : state) (v : value) (k : string) : value :=
  match deref st v with Some o => get o k | None => VUndefined end.

(** A change of the object [v] refers to. *)
Definition modify (v : value) (f : object → object) (st : state) : state :=
  match v with
  | VObject l => State (alter f l (heap st)) (errorPool st) (captures st) (deprecations st)
  | _ => st
  end.

(** The keys of [for (key in v)]; none for [null]. *)
Definition keys (st : state) (v : value) : list string :=
  match deref st v with Some o => for_in_keys o | None => [] end.

Definition read_stored (st : state) (v : value) (k : string) : value :=
  match deref st v with Some o => get_stored o k | None => VUndefined end.

(** [v instanceof Error] *)
Definition instanceof_Error (st : state) (v : value) : bool :=
  match deref st v with Some o => is_Error o | None => false end.

(** [v instanceof HttpError] for the abstract base. *)
Definition instanceof_HttpError (st : state) (v : value) : bool :=
  match deref st v with Some o => is_HttpError o | None => false end.

(** [deprecate(message)] *)
Definition deprecate (message : string) (st : state) : state :=
  State (heap st) (errorPool st) (captures st) (deprecations st ++ [message])%list.

(** [Error.captureStackTrace(v, _)]: one more capture; [v] gets an own,
    non-enumerable [stack] holding the captured text, in place of whatever
    own [stack] it had. *)
Definition captureStackTrace `{Collaborators} (v : value) (st : state) : state :=
  let st := modify v (defineProperty "stack" (VString (stack_text (captures st))) false) st in
  State (heap st) (errorPool st) (S (captures st)) (deprecations st).

(** [new Error(message)]: a generic error with an own, non-enumerable
    [message] unless the argument is [undefined], and the [stack] the engine
    stores at construction (not a call of [Error.captureStackTrace]). *)
Definition new_Error `{Collaborators} (message : value) (st : state) : state * loc :=
  alloc
    (Object ErrorPrototype
       match message with
       | VUndefined => []
       | _ => [("message", Property (VString (to_String message)) false)]
       end
       (StackValue (VString (stack_text (captures st))) false))
    st.

(** ** The lazy [stack] accessor (lines 199-229 and 300-330) *)

(** [err.stack], a read.  With the accessor installed and nothing captured
    yet, the getter captures, stores the text in [stackValue], sets
    [stackCaptured] and redefines [stack] as a plain value; with
    [stackCaptured] set it returns [stackValue].  A stored value is returned
    as it is, and an object without own [stack] finds none on its prototype
    chain. *)
Definition get_stack `{Collaborators} (err : loc) (st : state) : state * value :=
  match heap st !! err with
  | Some o =>
      match o_stack o with
      | NoStack => (st, VUndefined)
      | StackValue v _ => (st, v)
      | StackGetter stackValue stackCaptured =>
          if negb stackCaptured then
            let st := captureStackTrace (VObject err) st in
            let stackValue := read_stored st (VObject err) "stack" in
            let st := modify (VObject err) (defineProperty "stack" stackValue false) st in
            (st, stackValue)
          else (st, stackValue)
      end
  | None => (st, VUndefined)
  end.

(** [err.stack = v], a write. *)
Definition set_stack (err : loc) (v : value) (st : state) : state :=
  modify (VObject err) (assign "stack" v) st.

(** ** Generated constructors *)

(** What a generated constructor closes over. *)
Record error_constructor := Constructor {
  c_kind : kind;
  c_code : Z;
  className : string;
  defaultMsg : value
}.

(** [name.slice(-5)] *)
Definition slice_last5 (name : string) : string :=
  String.substring (String.length name - 5) 5 name.

(** Lines 410-412. *)
Definition toClassName (name : string) : string :=
  if String.eqb (slice_last5 name) "Error" then name else name +:+ "Error".

(** [statuses.message[n]] *)
Definition statuses_message `{Collaborators} (n : number) : value :=
  match n with Int z => of_option (statuses !! z) | NaN => VUndefined end.

(** [statuses.codes] *)
Definition statuses_codes `{Collaborators} : list Z := (map_to_list statuses).*1.

(** Lines 185-258, the closure. *)
Definition createClientErrorConstructor `{Collaborators} (name : string) (code : Z)
  : error_constructor :=
  Constructor Client code (toClassName name) (statuses_message (Int code)).

(** Lines 286-359, the closure. *)
Definition createServerErrorConstructor `{Collaborators} (name : string) (code : Z)
  : error_constructor :=
  Constructor Server code (toClassName name) (statuses_message (Int code)).

(** The body of [ClientError] (lines 191-248) and of [ServerError] (lines
    292-349), which differ only in the prototype they give the new error. *)
Definition generated_error `{Collaborators} (k : kind) (C : error_constructor)
    (message : value) (st : state) : state * loc :=
  let msg := if not_nullish message then message else defaultMsg C in
  let '(st, err) := new_Error msg st in
  let st := modify (VObject err) (setPrototypeOf (VariantPrototype k (c_code C))) st in
  let st := modify (VObject err) (delete_property "stack") st in
  let st := modify (VObject err)
              (λ o, Object (o_proto o) (o_props o) (StackGetter VUndefined false)) st in
  let st := modify (VObject err) (defineProperty "message" msg true) st in
  let st := modify (VObject err) (defineProperty "name" (VString (className C)) false) st in
  (st, err).

Definition ClientError `{Collaborators} := generated_error Client.

Definition ServerError `{Collaborators} := generated_error Server.

(** [new C(message)] *)
Definition new `{Collaborators} (C : error_constructor) (message : value) (st : state)
  : state * loc :=
  match c_kind C with
  | Client => ClientError C message st
  | Server => ServerError C message st
  end.

(** Lines 58-60. *)
Definition codeClass (status : number) : number :=
  Number (charAt0 (number_to_String status) +:+ "00").

(** Lines 380-400: the constructors [exports[code]], keyed by status code.
    The same constructor is also stored under its identifier name; the
    factory indexes by status only. *)
Definition populateConstructorExports `{Collaborators} (codes : list Z)
  : gmap Z error_constructor :=
  foldl
    (λ exports code,
       let name := toIdentifier (default EmptyString (statuses !! code)) in
       if number_eq (codeClass (Int code)) (Int 400)
       then <[code := createClientErrorConstructor name code]> exports
       else if number_eq (codeClass (Int code)) (Int 500)
       then <[code := createServerErrorConstructor name code]> exports
       else exports)
    ∅ codes.

(** [createError[n]] for a number [n] (line 51 filled the table). *)
Definition createError_at `{Collaborators} (n : number) : option error_constructor :=
  match n with
  | Int z => populateConstructorExports statuses_codes !! z
  | NaN => None
  end.

(** [v instanceof C] for a generated constructor. *)
Definition instanceof (st : state) (v : value) (C : error_constructor) : bool :=
  match deref st v with
  | Some o => bool_decide (o_proto o = VariantPrototype (c_kind C) (c_code C))
  | None => false
  end.

(** ** [createError] (lines 69-142) *)

(** What a call ends in: a returned value, or a thrown [TypeError]. *)
Inductive completion :=
| Return (st : state) (result : value)
| ThrowTypeError (message : string).

(** Lines 170-178: a call of the abstract [HttpError] throws. *)
Definition HttpError : completion :=
  ThrowTypeError "cannot construct abstract class".

(** The variables the argument loop assigns. *)
Record locals := Locals {
  a_err : value;
  a_msg : value;
  a_status : value;
  a_props : value
}.

(** Lines 75-90, from argument [i] on. *)
Fixpoint scan (st : state) (i : nat) (arguments : list value) (a : locals)
  : string + locals :=
  match arguments with
  | [] => inr a
  | arg :: rest =>
      let type := typeof arg in
      if String.eqb type "object" && instanceof_Error st arg then
        scan st (S i) rest
          (Locals arg (a_msg a)
             (logical_or (logical_or (read st arg "status") (read st arg "statusCode"))
                (a_status a))
             (a_props a))
      else if String.eqb type "number" && bool_decide (i = 0) then
        scan st (S i) rest (Locals (a_err a) (a_msg a) arg (a_props a))
      else if String.eqb type "string" then
        scan st (S i) rest (Locals (a_err a) arg (a_status a) (a_props a))
      else if String.eqb type "object" then
        scan st (S i) rest (Locals (a_err a) (a_msg a) (a_status a) arg)
      else
        inl ("argument #" +:+ pretty (i + 1) +:+ " unsupported type " +:+ type)
  end.

(** The text of line 93. *)
Definition non_error_warning : string :=
  "non-error status code; use only 4xx or 5xx status codes".

(** Lines 92-94. *)
Definition warn_non_error (status : value) (st : state) : state :=
  match status with
  | VNumber n =>
      if less_than n 400 || at_least n 600 then deprecate non_error_warning st else st
  | _ => st
  end.

(** Lines 96-99. *)
Definition resolve_status `{Collaborators} (status : value) : number :=
  match status with
  | VNumber n =>
      if negb (truthy (statuses_message n)) && (less_than n 400 || at_least n 600)
      then Int 500 else n
  | _ => Int 500
  end.

(** Lines 109-116: [errorPool[status]] exists and its [pop()] yields an
    instance; that instance loses its own [stack] and is the result. *)
Definition fast_path (status : number) (st : state) : option (state * value) :=
  match errorPool st !! number_to_String status with
  | Some pool =>
      match last pool with
      | Some pooled =>
          let st := State (heap st)
                      (<[number_to_String status := removelast pool]> (errorPool st))
                      (captures st) (deprecations st) in
          Some (modify (VObject pooled) (delete_property "stack") st, VObject pooled)
      | None => None
      end
  | None => None
  end.

(** Lines 131-132. *)
Definition stamp (err : value) (status : number) (st : state) : state :=
  let st := modify err (assign "expose" (VBoolean (less_than status 500))) st in
  let st := modify err (assign "statusCode" (VNumber status)) st in
  modify err (assign "status" (VNumber status)) st.

(** Lines 135-139. *)
Definition copy_props (props err : value) (st : state) : state :=
  foldl
    (λ st key,
       if negb (String.eqb key "status") && negb (String.eqb key "statusCode")
       then modify err (assign key (read_stored st props key)) st
       else st)
    st (keys st props).

(** Line 119. *)
Definition resolve_constructor `{Collaborators} (status : number)
  : option error_constructor :=
  match createError_at status with
  | Some C => Some C
  | None => createError_at (codeClass status)
  end.

(** Lines 119-141. *)
Definition slow_path `{Collaborators} (a : locals) (status : number) (st : state)
  : state * value :=
  let HttpError := resolve_constructor status in
  let '(st, err) :=
    if negb (truthy (a_err a)) then
      let '(st, err) :=
        match HttpError with
        | Some C => new C (a_msg a) st
        | None => new_Error (logical_or (a_msg a) (statuses_message status)) st
        end in
      (captureStackTrace (VObject err) st, VObject err)
    else (st, a_err a) in
  let st :=
    if match HttpError with
       | None => true
       | Some C =>
           negb (instanceof st err C)
           || negb (strict_eq (read st err "status") (VNumber status))
       end
    then stamp err status st
    else st in
  (copy_props (a_props a) err st, err).

(** Lines 101-141: what the factory does once [status] is settled. *)
Definition build `{Collaborators} (a : locals) (status : number) (st : state)
  : completion :=
  let hasCustomMsg := negb (strict_eq (a_msg a) VUndefined) in
  let hasProps := match keys st (a_props a) with [] => false | _ => true end in
  match
    if negb (truthy (a_err a)) && negb hasCustomMsg && negb hasProps
    then fast_path status st else None
  with
  | Some (st, pooled) => Return st pooled
  | None => let '(st, err) := slow_path a status st in Return st err
  end.

(** The variables as line 71-74 initialise them; [props] is a fresh [{}]. *)
Definition start (props : loc) : locals :=
  Locals VUndefined VUndefined (VNumber (Int 500)) (VObject props).

Definition createError `{Collaborators} (arguments : list value) (st : state)
  : completion :=
  let '(st, props) := alloc (Object ObjectPrototype [] NoStack) st in
  match scan st 0 arguments (start props) with
  | inl message => ThrowTypeError message
  | inr a =>
      build a (resolve_status (a_status a)) (warn_non_error (a_status a) st)
  end.

(** ** [releaseError] (lines 148-160), for an object [err] *)

Definition kept (key : string) : bool :=
  String.eqb key "status" || String.eqb key "statusCode" || String.eqb key "expose"
  || String.eqb key "message" || String.eqb key "name".

(** Lines 152-157. *)
Definition clear_custom (err : loc) (st : state) : state :=
  foldl
    (λ st key, if kept key then st else modify (VObject err) (delete_property key) st)
    st (keys st (VObject err)).

(** Line 149: [err.statusCode || err.status]. *)
Definition release_status (st : state) (err : loc) : value :=
  logical_or (read st (VObject err) "statusCode") (read st (VObject err) "status").

Definition releaseError (err : loc) (st : state) : state :=
  let status := release_status st err in
  match errorPool st !! to_String status with
  | Some pool =>
      if bool_decide (length pool < poolSize) then
        let st := clear_custom err st in
        State (heap st) (<[to_String status := (pool ++ [err])%list]> (errorPool st))
          (captures st) (deprecations st)
      else st
  | None => st
  end.

(** ** [isHttpError] (lines 265-279) *)

Definition isHttpError (st : state) (val : value) : bool :=
  if negb (truthy val) || negb (String.eqb (typeof val) "object") then false
  else if instanceof_HttpError st val then true
  else
    instanceof_Error st val
    && String.eqb (typeof (read st val "expose")) "boolean"
    && String.eqb (typeof (read st val "statusCode")) "number"
    && strict_eq (read st val "status") (read st val "statusCode").

(** ** Callers *)

(** What the code around the module can do to the state: call the factory,
    release an object, call a generated constructor, read or write a [stack],
    and create or change objects of its own. *)
Inductive call :=
| CallCreateError (arguments : list value)
| CallReleaseError (err : loc)
| CallNew (C : error_constructor) (message : value)
| CallGetStack (err : loc)
| CallNewObject (o : object)
| CallAssign (target : loc) (key : string) (v : value)
| CallDelete (target : loc) (key : string).

Definition step `{Collaborators} (st : state) (c : call) : state :=
  match c with
  | CallCreateError arguments =>
      match createError arguments st with
      | Return st' _ => st'
      | ThrowTypeError _ => st
      end
  | CallReleaseError err => releaseError err st
  | CallNew C message => (new C message st).1
  | CallGetStack err => (get_stack err st).1
  | CallNewObject o => (alloc o st).1
  | CallAssign target key v => modify (VObject target) (assign key v) st
  | CallDelete target key => modify (VObject target) (delete_property key) st
  end.


(** ** The collaborators as the dependencies provide them *)

(** The reason phrases of the registered status codes, the content of the
    table behind [statuses.message]. *)
Definition codes_json : list (Z * string) :=
  [ (100, "Continue"); (101, "Switching Protocols"); (102, "Processing");
    (103, "Early Hints"); (200, "OK"); (201, "Created"); (202, "Accepted");
    (203, "Non-Authoritative Information"); (204, "No Content");
    (205, "Reset Content"); (206, "Partial Content"); (207, "Multi-Status");
    (208, "Already Reported"); (226, "IM Used"); (300, "Multiple Choices");
    (301, "Moved Permanently"); (302, "Found"); (303, "See Other");
    (304, "Not Modified"); (305, "Use Proxy"); (307, "Temporary Redirect");
    (308, "Permanent Redirect"); (400, "Bad Request"); (401, "Unauthorized");
    (402, "Payment Required"); (403, "Forbidden"); (404, "Not Found");
    (405, "Method Not Allowed"); (406, "Not Acceptable");
    (407, "Proxy Authentication Required"); (408, "Request Timeout");
    (409, "Conflict"); (410, "Gone"); (411, "Length Required");
    (412, "Precondition Failed"); (413, "Payload Too Large");
    (414, "URI Too Long"); (415, "Unsupported Media Type");
    (416, "Range Not Satisfiable"); (417, "Expectation Failed");
    (418, "I'm a Teapot"); (421, "Misdirected Request");
    (422, "Unprocessable Entity"); (423, "Locked"); (424, "Failed Dependency");
    (425, "Too Early"); (426, "Upgrade Required");
    (428, "Precondition Required"); (429, "Too Many Requests");
    (431, "Request Header Fields Too Large");
    (451, "Unavailable For Legal Reasons"); (500, "Internal Server Error");
    (501, "Not Implemented"); (502, "Bad Gateway");
    (503, "Service Unavailable"); (504, "Gateway Timeout");
    (505, "HTTP Version Not Supported"); (506, "Variant Also Negotiates");
    (507, "Insufficient Storage"); (508, "Loop Detected");
    (509, "Bandwidth Limit Exceeded"); (510, "Not Extended");
    (511, "Network Authentication Required") ]%Z.

Definition upper (c : ascii) : ascii :=
  let n := nat_of_ascii c in
  if bool_decide (97 ≤ n ≤ 122)%nat then ascii_of_nat (n - 32) else c.

Definition identifier_char (c : ascii) : bool :=
  let n := nat_of_ascii c in
  bool_decide (48 ≤ n ≤ 57)%nat || bool_decide (65 ≤ n ≤ 90)%nat
  || bool_decide (97 ≤ n ≤ 122)%nat || bool_decide (n = 95).

(** The casing of [toidentifier]: the words of the phrase, each with its first
    letter in upper case, joined, without the characters that are no letter,
    digit or underscore. *)
Fixpoint to_identifier (first : bool) (s : string) : string :=
  match s with
  | EmptyString => EmptyString
  | String c rest =>
      if bool_decide (c = " "%char) then to_identifier true rest
      else
        let c := if first then upper c else c in
        if identifier_char c then String c (to_identifier false rest)
        else to_identifier false rest
  end.

Definition node : Collaborators :=
  {| statuses := list_to_map codes_json;
     toIdentifier := to_identifier true;
     stack_text := λ n, "Error\n    at capture " +:+ pretty n |}.

(** Sample objects of a caller. *)
Definition bag (entries : list (string * value)) : object :=
  Object ObjectPrototype (map (λ kv, (kv.1, Property kv.2 true)) entries) NoStack.

Definition plain_error (message : string) : object :=
  Object ErrorPrototype [("message", Property (VString message) false)]
    (StackValue (VString "Error\n    at caller") false).

(** ** Vocabulary of the statements *)




(** The own [stack] of the object at [err], if there is such an object. *)
Definition stack_at (st : state) (err : loc) : option stack_slot :=
  o_stack <$> heap st !! err.

(** [n] reads of [err.stack] in a row. *)
Definition read_stack_times `{Collaborators} (n : nat) (err : loc) (st : state) : state :=
  Nat.iter n (λ st, (get_stack err st).1) st.

(** A number outside and inside [400,600), as the comparisons of lines 92
    and 97 read it.  [NaN] is neither below 400 nor at least 600, and neither
    at least 400 nor below 600: it is on neither side. *)
Definition outside (n : number) : bool := less_than n 400 || at_least n 600.

Definition inside (n : number) : bool := at_least n 400 && less_than n 600.

(** [typeof v === 'boolean'] *)
Definition is_boolean (v : value) : bool := String.eqb (typeof v) "boolean".

(** [v.status === v.statusCode], and [v.expose] is a boolean. *)
Definition consistent (st : state) (v : value) : bool :=
  strict_eq (read st v "status") (read st v "statusCode")
  && is_boolean (read st v "expose").



(** Lines 152-157 on the object itself, for the keys [ks]. *)
Definition clear_object (o : object) (ks : list string) : object :=
  foldl (λ o key, if kept key then o else delete_property key o) o ks.

(** The instance that [new C(message)] and the capture of line 126 leave on
    the heap, for the constructor of a code [c] with reason phrase [phrase];
    [n] is the number of captures before. *)
Definition built_instance `{Collaborators} (c : Z) (phrase : string) (message : value)
    (n : nat) : object :=
  Object (VariantPrototype (if bool_decide (c < 500)%Z then Client else Server) c)
    [("message", Property (if not_nullish message then message else VString phrase) true);
     ("name", Property (VString (toClassName (toIdentifier phrase))) false)]
    (StackValue (VString (stack_text n)) false).

(** ** Sample runs *)

(** The state and the value of a call that returned. *)
Definition returned (c : completion) : state * value :=
  match c with
  | Return st r => (st, r)
  | ThrowTypeError _ => (initial_state, VUndefined)
  end.

Definition address (v : value) : loc :=
  match v with VObject l => l | _ => 0 end.

(** [createError(404, 'custom')] right after module load. *)
Definition custom_404 : state * value :=
  returned (createError (H := node) [VNumber (Int 404); VString "custom"] initial_state).

(** [createError(404)] right after module load, and the same instance after
    [releaseError] and a second [createError(404)]. *)
Definition first_404 : state * value :=
  returned (createError (H := node) [VNumber (Int 404)] initial_state).

Definition released_404 : state :=
  releaseError (address first_404.2) first_404.1.

Definition second_404 : state * value :=
  returned (createError (H := node) [VNumber (Int 404)] released_404).

(** A caller's heap holding one property bag, at address 0. *)
Definition with_bag (entries : list (string * value)) : state :=
  (alloc (bag entries) initial_state).1.

(** A caller's heap after [createError(404)] and its release, holding the
    empty bag [{}] at address 2. *)
Definition released_404_and_empty_bag : state :=
  (alloc (bag []) released_404).1.


(** [createError(NaN)] right after module load. *)
Definition created_NaN : state * value :=
  returned (createError (H := node) [VNumber NaN] initial_state).

(** The caller builds [e = new createError.NotFound()], sets
    [e.statusCode = 500], and calls [createError(e)]. *)
Definition adopted_after_assignment : state * value :=
  let C := createClientErrorConstructor (H := node) (to_identifier true "Not Found") 404 in
  let '(st, e) := new (H := node) C VUndefined initial_state in
  let st := modify (VObject e) (assign "statusCode" (VNumber (Int 500))) st in
  returned (createError (H := node) [VObject e] st).

(** [e = createError(404, {expose: 'yes'})], [releaseError(e)], and then
    [createError(404)]. *)
Definition pooled_after_bag : state * value :=
  let '(st, e) :=
    returned (createError (H := node) [VNumber (Int 404); VObject 0]
                (with_bag [("expose", VString "yes")])) in
  returned (createError (H := node) [VNumber (Int 404)] (releaseError (address e) st)).

(** The caller builds [e = new Error('boom')], sets [e.status = 404],
    releases it, and calls [createError(404)]. *)
Definition pooled_plain_error : state * value :=
  let '(st, e) := alloc (plain_error "boom") initial_state in
  let st := modify (VObject e) (assign "status" (VNumber (Int 404))) st in
  returned (createError (H := node) [VNumber (Int 404)] (releaseError e st)).

(** * Properties *)

(** ** Own properties *)

Lemma eqb_false_ne (a b : string) : String.eqb a b = false ↔ a ≠ b.
Proof. apply String.eqb_neq. Qed.

Lemma own_lookup_define_eq k p ps : own_lookup k (own_define k p ps) = Some p.
Proof.
  induction ps as [|[k' p'] ps IH]; simpl.
  - by rewrite String.eqb_refl.
  - destruct (String.eqb k' k) eqn:E; simpl.
    + by rewrite String.eqb_refl.
    + by rewrite E.
Qed.

Lemma own_lookup_define_ne k k' p ps :
  k ≠ k' → own_lookup k' (own_define k p ps) = own_lookup k' ps.
Proof.
  intros Hne. induction ps as [|[k0 p0] ps IH]; simpl.
  - apply eqb_false_ne in Hne. by rewrite Hne.
  - destruct (String.eqb k0 k) eqn:E; simpl.
    + apply String.eqb_eq in E. subst k0.
      apply eqb_false_ne in Hne. by rewrite Hne.
    + by rewrite IH.
Qed.

Lemma own_lookup_store_eq k v ps :
  ∃ e, own_lookup k (own_store k v ps) = Some (Property v e).
Proof.
  unfold own_store. destruct (own_lookup k ps) as [p|];
    eexists; apply own_lookup_define_eq.
Qed.

Lemma own_lookup_store_ne k k' v ps :
  k ≠ k' → own_lookup k' (own_store k v ps) = own_lookup k' ps.
Proof.
  intros Hne. unfold own_store.
  destruct (own_lookup k ps); by apply own_lookup_define_ne.
Qed.

Lemma own_lookup_delete_ne k k' ps :
  k ≠ k' → own_lookup k' (own_delete k ps) = own_lookup k' ps.
Proof.
  intros Hne. unfold own_delete. induction ps as [|[k0 p0] ps IH]; [done|].
  rewrite filter_cons. simpl. case_decide as E; simpl.
  - by rewrite IH.
  - rewrite IH. apply not_false_is_true, String.eqb_eq in E. subst k0.
    apply eqb_false_ne in Hne. by rewrite Hne.
Qed.

Lemma get_assign_eq k v o : is_stack k = false → get (assign k v o) k = v.
Proof.
  intros Hk. unfold get, assign. rewrite Hk. simpl.
  by destruct (own_lookup_store_eq k v (o_props o)) as [e ->].
Qed.

Lemma get_assign_ne k k' v o : k ≠ k' → get (assign k v o) k' = get o k'.
Proof.
  intros Hne. unfold get, assign. destruct (is_stack k); simpl; [done|].
  by rewrite own_lookup_store_ne.
Qed.

Lemma get_delete_ne k k' o : k ≠ k' → get (delete_property k o) k' = get o k'.
Proof.
  intros Hne. unfold get, delete_property. destruct (is_stack k); simpl; [done|].
  by rewrite own_lookup_delete_ne.
Qed.

Lemma get_defineProperty_eq k v e o :
  is_stack k = false → get (defineProperty k v e o) k = v.
Proof.
  intros Hk. unfold get, defineProperty. rewrite Hk. simpl.
  by rewrite own_lookup_define_eq.
Qed.

Lemma get_defineProperty_ne k k' v e o :
  k ≠ k' → get (defineProperty k v e o) k' = get o k'.
Proof.
  intros Hne. unfold get, defineProperty. destruct (is_stack k); simpl; [done|].
  by rewrite own_lookup_define_ne.
Qed.

Lemma proto_assign k v o : o_proto (assign k v o) = o_proto o.
Proof. unfold assign. by destruct (is_stack k). Qed.

Lemma proto_delete k o : o_proto (delete_property k o) = o_proto o.
Proof. unfold delete_property. by destruct (is_stack k). Qed.

Lemma proto_defineProperty k v e o : o_proto (defineProperty k v e o) = o_proto o.
Proof. unfold defineProperty. by destruct (is_stack k). Qed.

(** ** The heap *)

Lemma modify_errorPool v f st : errorPool (modify v f st) = errorPool st.
Proof. by destruct v. Qed.

Lemma modify_captures v f st : captures (modify v f st) = captures st.
Proof. by destruct v. Qed.

Lemma modify_deprecations v f st : deprecations (modify v f st) = deprecations st.
Proof. by destruct v. Qed.

Lemma modify_length v f st : length (heap (modify v f st)) = length (heap st).
Proof. destruct v; simpl; try done. apply length_alter. Qed.

Lemma deref_modify_eq v f st : deref (modify v f st) v = f <$> deref st v.
Proof. destruct v; simpl; try done. apply list_lookup_alter_eq. Qed.

Lemma deref_modify_ne l l' f st :
  l ≠ l' → deref (modify (VObject l) f st) (VObject l') = deref st (VObject l').
Proof. intros Hne. simpl. by apply list_lookup_alter_ne. Qed.

Lemma deref_alloc_old o st v :
  is_Some (deref st v) → deref (alloc o st).1 v = deref st v.
Proof.
  destruct v; simpl; try by intros [? ?].
  intros [x Hx]. by rewrite (lookup_app_l_Some _ _ _ _ Hx).
Qed.

Lemma deref_alloc_new o st : deref (alloc o st).1 (VObject (alloc o st).2) = Some o.
Proof. simpl. by rewrite lookup_app_r, Nat.sub_diag. Qed.

#[global] Arguments modify : simpl never.
#[global] Arguments alloc : simpl never.
#[global] Arguments deref : simpl never.
#[global] Arguments read : simpl never.
#[global] Arguments keys : simpl never.
#[global] Arguments read_stored : simpl never.
#[global] Arguments captureStackTrace : simpl never.
#[global] Arguments new_Error : simpl never.
#[global] Arguments generated_error : simpl never.
#[global] Arguments ClientError : simpl never.
#[global] Arguments ServerError : simpl never.
#[global] Arguments new : simpl never.
#[global] Arguments get_stack : simpl never.
#[global] Arguments set_stack : simpl never.
#[global] Arguments stamp : simpl never.
#[global] Arguments copy_props : simpl never.
#[global] Arguments clear_custom : simpl never.
#[global] Arguments fast_path : simpl never.
#[global] Arguments slow_path : simpl never.
#[global] Arguments build : simpl never.
#[global] Arguments createError : simpl never.
#[global] Arguments releaseError : simpl never.
#[global] Arguments warn_non_error : simpl never.
#[global] Arguments resolve_status : simpl never.
#[global] Arguments resolve_constructor : simpl never.
#[global] Arguments createError_at : simpl never.
#[global] Arguments instanceof : simpl never.
#[global] Arguments instanceof_Error : simpl never.
#[global] Arguments instanceof_HttpError : simpl never.
#[global] Arguments isHttpError : simpl never.

(** ** What leaves [errorPool] alone *)

Lemma foldl_invariant {A B} (P : A → Prop) (f : A → B → A) (l : list B) (a : A) :
  P a → (∀ a b, P a → P (f a b)) → P (foldl f a l).
Proof. revert a. induction l as [|b l IH]; simpl; auto. Qed.

Section Frame.
Context `{Collaborators}.

Lemma captureStackTrace_errorPool v st :
  errorPool (captureStackTrace v st) = errorPool st.
Proof. unfold captureStackTrace. simpl. apply modify_errorPool. Qed.

Lemma new_errorPool C message st : errorPool (new C message st).1 = errorPool st.
Proof. unfold new. by destruct (c_kind C). Qed.

Lemma stamp_errorPool err status st : errorPool (stamp err status st) = errorPool st.
Proof. unfold stamp. by rewrite !modify_errorPool. Qed.

Lemma copy_props_errorPool props err st :
  errorPool (copy_props props err st) = errorPool st.
Proof.
  unfold copy_props. generalize (keys st props). intros ks.
  apply (foldl_invariant (λ st', errorPool st' = errorPool st)); [done|].
  intros a b Ha. destruct (_ && _); [|done]. by rewrite modify_errorPool.
Qed.

Lemma clear_custom_errorPool err st : errorPool (clear_custom err st) = errorPool st.
Proof.
  unfold clear_custom. generalize (keys st (VObject err)). intros ks.
  apply (foldl_invariant (λ st', errorPool st' = errorPool st)); [done|].
  intros a b Ha. destruct (kept b); [done|]. by rewrite modify_errorPool.
Qed.

Lemma warn_non_error_errorPool status st :
  errorPool (warn_non_error status st) = errorPool st.
Proof.
  unfold warn_non_error. destruct status as [| | |n| | | | |]; try done.
  by destruct (_ || _).
Qed.


Lemma slow_path_errorPool a status st :
  errorPool (slow_path a status st).1 = errorPool st.
Proof.
  unfold slow_path.
  destruct (negb (truthy (a_err a))).
  - destruct (resolve_constructor status) as [C|].
    + destruct (new C (a_msg a) st) as [st1 e] eqn:E.
      assert (errorPool st1 = errorPool st) as E1
        by (pose proof (new_errorPool C (a_msg a) st) as E'; by rewrite E in E').
      simpl. rewrite copy_props_errorPool.
      destruct (_ || _);
        by rewrite ?stamp_errorPool, captureStackTrace_errorPool.
    + simpl. by rewrite copy_props_errorPool, stamp_errorPool,
        captureStackTrace_errorPool.
  - simpl. rewrite copy_props_errorPool.
    destruct (match resolve_constructor status with Some _ => _ | None => _ end);
      by rewrite ?stamp_errorPool.
Qed.



End Frame.

(** ** The pool bound (C7) *)








(** ** Unsupported arguments (C6) *)


Lemma createError_scan `{Collaborators} arguments st :
  createError arguments st =
  match scan (alloc (Object ObjectPrototype [] NoStack) st).1 0 arguments
          (start (length (heap st))) with
  | inl message => ThrowTypeError message
  | inr a =>
      build a (resolve_status (a_status a))
        (warn_non_error (a_status a) (alloc (Object ObjectPrototype [] NoStack) st).1)
  end.
Proof. reflexivity. Qed.



(** ** The lazy stack (C8) *)

Lemma alter_snoc {A} (f : A → A) (l : list A) (x : A) :
  alter f (length l) (l ++ [x]) = l ++ [f x].
Proof. by rewrite <- (Nat.add_0_r (length l)), alter_app_r. Qed.

Lemma modify_snoc h o f p c d :
  modify (VObject (length h)) f (State (h ++ [o]) p c d) = State (h ++ [f o]) p c d.
Proof. unfold modify. simpl. by rewrite alter_snoc. Qed.

Section Stack.
Context `{Collaborators}.

(** What [new C(message)] leaves on the heap. *)
Lemma new_eq C message st :
  new C message st =
  alloc
    (Object (VariantPrototype (c_kind C) (c_code C))
       [("message", Property (if not_nullish message then message else defaultMsg C) true);
        ("name", Property (VString (className C)) false)]
       (StackGetter VUndefined false))
    st.
Proof.
  assert (∀ k, generated_error k C message st =
               alloc
                 (Object (VariantPrototype k (c_code C))
                    [("message",
                      Property (if not_nullish message then message else defaultMsg C) true);
                     ("name", Property (VString (className C)) false)]
                    (StackGetter VUndefined false))
                 st) as Hk.
  { intros k. unfold generated_error, new_Error.
    set (msg := if not_nullish message then message else defaultMsg C).
    set (o := Object ErrorPrototype _ _).
    unfold alloc. cbv beta iota. rewrite !modify_snoc.
    subst o. by destruct msg. }
  unfold new, ClientError, ServerError. destruct (c_kind C); apply Hk.
Qed.

Lemma get_stack_first st err sv :
  stack_at st err = Some (StackGetter sv false) →
  (get_stack err st).2 = VString (stack_text (captures st))
  ∧ captures (get_stack err st).1 = S (captures st)
  ∧ stack_at (get_stack err st).1 err
    = Some (StackValue (VString (stack_text (captures st))) false).
Proof.
  unfold stack_at, get_stack. intros Hs.
  destruct (heap st !! err) as [o|] eqn:Ho; [|done].
  simpl in Hs. injection Hs as Hs. rewrite Hs. cbn [negb].
  unfold captureStackTrace, read_stored, deref, modify. simpl.
  rewrite !list_lookup_alter_eq, Ho. simpl. done.
Qed.

Lemma get_stack_stored st err v e :
  stack_at st err = Some (StackValue v e) → get_stack err st = (st, v).
Proof.
  unfold stack_at, get_stack. intros Hs.
  destruct (heap st !! err) as [o|]; [|done].
  simpl in Hs. injection Hs as Hs. by rewrite Hs.
Qed.

Lemma get_stack_captured st err sv :
  stack_at st err = Some (StackGetter sv true) → get_stack err st = (st, sv).
Proof.
  unfold stack_at, get_stack. intros Hs.
  destruct (heap st !! err) as [o|]; [|done].
  simpl in Hs. injection Hs as Hs. by rewrite Hs.
Qed.

Lemma get_stack_absent st err :
  stack_at st err = Some NoStack → get_stack err st = (st, VUndefined).
Proof.
  unfold stack_at, get_stack. intros Hs.
  destruct (heap st !! err) as [o|]; [|done].
  simpl in Hs. injection Hs as Hs. by rewrite Hs.
Qed.

Lemma set_stack_getter st err sv c v :
  stack_at st err = Some (StackGetter sv c) →
  stack_at (set_stack err v st) err = Some (StackGetter v true)
  ∧ captures (set_stack err v st) = captures st.
Proof.
  unfold stack_at, set_stack, modify. simpl. intros Hs.
  rewrite list_lookup_alter_eq.
  destruct (heap st !! err) as [o|]; [|done].
  simpl in *. injection Hs as Hs. by rewrite Hs.
Qed.

Lemma read_stack_times_fixed n err st v :
  get_stack err st = (st, v) → read_stack_times n err st = st.
Proof.
  intros Hg. unfold read_stack_times.
  induction n as [|n IH]; [done|]. simpl. by rewrite IH, Hg.
Qed.

(** C8.  On the instance a generated constructor (of either kind) has just
    built, [stack] is the accessor with nothing captured and construction
    called [Error.captureStackTrace] not once; the first read captures
    exactly once, returns the captured text and stores it; a second read, and
    any number of later reads, return that same text and change nothing, so
    no second capture occurs; a write before any read makes every later read
    return the written value without any capture. *)
Theorem generated_instance_stack_is_lazy (C : error_constructor)
    (message : value) (st : state) :
  let st1 := (new C message st).1 in
  let err := (new C message st).2 in
  let text := VString (stack_text (captures st)) in
  let st2 := (get_stack err st1).1 in
  captures st1 = captures st
  ∧ stack_at st1 err = Some (StackGetter VUndefined false)
  ∧ (get_stack err st1).2 = text
  ∧ captures st2 = S (captures st)
  ∧ stack_at st2 err = Some (StackValue text false)
  ∧ get_stack err st2 = (st2, text)
  ∧ (∀ n, read_stack_times n err st2 = st2)
  ∧ (∀ v, let st3 := set_stack err v st1 in
          get_stack err st3 = (st3, v)
          ∧ captures st3 = captures st
          ∧ ∀ n, read_stack_times n err st3 = st3).
Proof.
  intros st1 err text st2. subst st1 err st2 text. rewrite new_eq.
  set (o := Object _ _ _). set (st1 := (alloc o st).1). set (err := (alloc o st).2).
  assert (stack_at st1 err = Some (StackGetter VUndefined false)) as Hs.
  { unfold stack_at. change (heap st1 !! err) with (deref st1 (VObject err)).
    subst st1 err. by rewrite deref_alloc_new. }
  assert (captures st1 = captures st) as Hc by done.
  destruct (get_stack_first st1 err VUndefined Hs) as (Hv & Hc2 & Hs2).
  rewrite Hc in Hv, Hc2, Hs2.
  pose proof (get_stack_stored _ _ _ _ Hs2) as Hsecond.
  split_and!; try done.
  - intros n. by eapply read_stack_times_fixed.
  - intros v st3. subst st3.
    destruct (set_stack_getter st1 err VUndefined false v Hs) as [Hs3 Hc3].
    pose proof (get_stack_captured _ _ _ Hs3) as Hread.
    split_and!; [done|congruence|].
    intros n. by eapply read_stack_times_fixed.
Qed.

End Stack.

(** ** The empty property bag (C10) *)

Lemma keys_alloc o st v :
  for_in_keys o = [] → keys (alloc o st).1 v = keys st v.
Proof.
  intros Ho. unfold keys. destruct (deref st v) as [o'|] eqn:E.
  - by rewrite deref_alloc_old, E by eauto.
  - destruct v as [| | | | | | | |l]; try done.
    unfold deref, alloc in *. simpl in *.
    apply lookup_ge_None in E.
    destruct (decide (l = length (heap st))) as [->|Hne].
    + by rewrite lookup_app_r, Nat.sub_diag by lia.
    + rewrite lookup_ge_None_2; [done|]. rewrite length_app. simpl. lia.
Qed.

Lemma instanceof_Error_alloc o st v :
  is_Error o = false → instanceof_Error (alloc o st).1 v = instanceof_Error st v.
Proof.
  intros Ho. unfold instanceof_Error. destruct (deref st v) as [o'|] eqn:E.
  - by rewrite deref_alloc_old, E by eauto.
  - destruct v as [| | | | | | | |l]; try done.
    unfold deref, alloc in *. simpl in *.
    apply lookup_ge_None in E.
    destruct (decide (l = length (heap st))) as [->|Hne].
    + by rewrite lookup_app_r, Nat.sub_diag by lia.
    + rewrite lookup_ge_None_2; [done|]. rewrite length_app. simpl. lia.
Qed.

Lemma keys_warn_non_error status st v : keys (warn_non_error status st) v = keys st v.
Proof.
  unfold warn_non_error. destruct status as [| | |n| | | | |]; try done.
  by destruct (_ || _).
Qed.

Lemma heap_warn_non_error status st : heap (warn_non_error status st) = heap st.
Proof.
  unfold warn_non_error. destruct status as [| | |n| | | | |]; try done.
  by destruct (_ || _).
Qed.

Section EmptyBag.
Context `{Collaborators}.

Lemma slow_path_fresh a status st :
  a_err a = VUndefined → (slow_path a status st).2 = VObject (length (heap st)).
Proof.
  intros Ha. unfold slow_path. rewrite Ha. cbn [truthy negb].
  destruct (resolve_constructor status) as [C|].
  - rewrite new_eq. unfold alloc.
    by destruct (negb _ || negb _).
  - done.
Qed.

Lemma fast_path_pop status st pool pooled :
  errorPool st !! number_to_String status = Some (pool ++ [pooled]) →
  fast_path status st =
  Some (modify (VObject pooled) (delete_property "stack")
          (State (heap st) (<[number_to_String status := pool]> (errorPool st))
             (captures st) (deprecations st)),
        VObject pooled).
Proof.
  intros Hp. unfold fast_path. by rewrite Hp, last_snoc, removelast_last.
Qed.

(** C10.  With a released instance on top of the pool of 404, a call
    [createError(404, bag)] whose bag shows no key to [for-in] (an empty
    object, [null]) is served from the pool: it returns that instance and
    pops it.  A bag with at least one such key is not: the result is a newly
    allocated object and the pool stays as it was. *)
Theorem keyless_bag_is_served_from_pool (st : state) (bag : value)
    (pool : list loc) (pooled : loc) :
  typeof bag = "object" →
  instanceof_Error st bag = false →
  errorPool st !! "404" = Some (pool ++ [pooled]) →
  (keys st bag = [] →
   ∃ st', createError [VNumber (Int 404); bag] st = Return st' (VObject pooled)
          ∧ errorPool st' = <["404" := pool]> (errorPool st))
  ∧ (keys st bag ≠ [] →
     ∃ st', createError [VNumber (Int 404); bag] st
            = Return st' (VObject (S (length (heap st))))
          ∧ errorPool st' = errorPool st).
Proof.
  intros Hty Hne Hpool.
  set (st1 := (alloc (Object ObjectPrototype [] NoStack) st).1).
  assert (scan st1 0 [VNumber (Int 404); bag] (start (length (heap st)))
          = inr (Locals VUndefined VUndefined (VNumber (Int 404)) bag)) as Hscan.
  { cbn [scan typeof]. simpl (String.eqb "number" "object" && _).
    cbn [andb String.eqb Ascii.eqb Bool.eqb bool_decide decide_rel].
    subst st1. rewrite Hty, instanceof_Error_alloc, Hne by done.
    done. }
  assert (resolve_status (VNumber (Int 404)) = Int 404) as Hres.
  { unfold resolve_status. by rewrite andb_false_r. }
  assert (warn_non_error (VNumber (Int 404)) st1 = st1) as Hwarn by done.
  assert (keys st1 bag = keys st bag) as Hkeys by (by apply keys_alloc).
  split; intros Hk; rewrite createError_scan; fold st1; rewrite Hscan;
    cbn [a_status]; rewrite Hres, Hwarn; unfold build; cbn [a_err a_msg a_props];
    rewrite Hkeys.
  - rewrite Hk. cbn [truthy strict_eq negb andb].
    rewrite (fast_path_pop (Int 404) st1 pool pooled) by done.
    eexists. split; [done|]. by rewrite modify_errorPool.
  - destruct (keys st bag) as [|k ks]; [done|]. cbn [negb andb].
    destruct (slow_path _ (Int 404) st1) as [st' err] eqn:E.
    exists st'. split.
    + f_equal. pose proof (slow_path_fresh
        (Locals VUndefined VUndefined (VNumber (Int 404)) bag) (Int 404) st1 eq_refl) as Hf.
      rewrite E in Hf. simpl in Hf. subst err. f_equal.
      subst st1. unfold alloc. simpl. rewrite length_app. simpl. lia.
    + pose proof (slow_path_errorPool
        (Locals VUndefined VUndefined (VNumber (Int 404)) bag) (Int 404) st1) as Hp.
      by rewrite E in Hp.
Qed.

End EmptyBag.

(** ** What leaves the deprecation log alone *)

Section Deprecations.
Context `{Collaborators}.






End Deprecations.

(** ** The table of constructors *)

Section Registry.
Context `{Collaborators}.

(** The constructor line 385-392 generates for a code, if any. *)
Lemma populateConstructorExports_lookup codes z :
  populateConstructorExports codes !! z =
  if decide (z ∈ codes) then
    if number_eq (codeClass (Int z)) (Int 400)
    then Some (createClientErrorConstructor
                 (toIdentifier (default EmptyString (statuses !! z))) z)
    else if number_eq (codeClass (Int z)) (Int 500)
    then Some (createServerErrorConstructor
                 (toIdentifier (default EmptyString (statuses !! z))) z)
    else None
  else None.
Proof.
  unfold populateConstructorExports.
  set (step := λ (exports : gmap Z error_constructor) (code : Z), _).
  set (gen := λ z : Z,
    if number_eq (codeClass (Int z)) (Int 400)
    then Some (createClientErrorConstructor
                 (toIdentifier (default EmptyString (statuses !! z))) z)
    else if number_eq (codeClass (Int z)) (Int 500)
    then Some (createServerErrorConstructor
                 (toIdentifier (default EmptyString (statuses !! z))) z)
    else None).
  change (foldl step ∅ codes !! z = if decide (z ∈ codes) then gen z else None).
  assert (∀ acc,
    foldl step acc codes !! z =
    match (if decide (z ∈ codes) then gen z else None) with
    | Some C => Some C
    | None => acc !! z
    end) as Hgen.
  { induction codes as [|c cs IH]; intros acc; simpl.
    - done.
    - rewrite IH.
      assert (step acc c !! z =
              if decide (c = z) then
                match gen z with Some C => Some C | None => acc !! z end
              else acc !! z) as Hstep.
      { subst step gen. cbv beta. destruct (decide (c = z)) as [Hcz|Hcz].
        - subst c. destruct (number_eq _ (Int 400)); [by rewrite lookup_insert_eq|].
          destruct (number_eq _ (Int 500)); [by rewrite lookup_insert_eq|done].
        - destruct (number_eq _ (Int 400)); [by rewrite lookup_insert_ne|].
          destruct (number_eq _ (Int 500)); [by rewrite lookup_insert_ne|done]. }
      rewrite Hstep.
      destruct (decide (z ∈ cs)) as [Hin|Hnin];
        destruct (decide (c = z)) as [Hcz|Hcz];
        destruct (decide (z ∈ c :: cs)) as [Hin'|Hnin'];
        try (exfalso; apply Hnin'; apply elem_of_cons; by auto);
        try (apply elem_of_cons in Hin' as [?|?]; done).
      + by destruct (gen z).
      + by destruct (gen z). }
  rewrite Hgen, lookup_empty. by destruct (if decide _ then _ else _).
Qed.


End Registry.

(** ** The status fallback (C5) *)

Lemma number_eq_true a b : number_eq a b = true → a = b.
Proof.
  destruct a as [x|], b as [y|]; try done. simpl.
  by intros ->%bool_decide_eq_true.
Qed.

(** [codeClass] on the codes of the two classes with constructors, by
    running it on each of them. *)
Lemma codeClass_4xx z : (400 ≤ z < 500)%Z → codeClass (Int z) = Int 400.
Proof.
  intros Hz.
  assert (forallb (λ z, number_eq (codeClass (Int z)) (Int 400)) (seqZ 400 100) = true)
    as Hall by (vm_compute; reflexivity).
  rewrite forallb_forall in Hall.
  apply number_eq_true, Hall, list_elem_of_In, elem_of_seqZ. lia.
Qed.

Lemma codeClass_5xx z : (500 ≤ z < 600)%Z → codeClass (Int z) = Int 500.
Proof.
  intros Hz.
  assert (forallb (λ z, number_eq (codeClass (Int z)) (Int 500)) (seqZ 500 100) = true)
    as Hall by (vm_compute; reflexivity).
  rewrite forallb_forall in Hall.
  apply number_eq_true, Hall, list_elem_of_In, elem_of_seqZ. lia.
Qed.


Lemma NaN_on_neither_side : outside NaN = false ∧ inside NaN = false.
Proof. done. Qed.



(** ** What [releaseError] strips (C3) *)

Lemma elem_of_own_enumerable_keys o k :
  k ∈ own_enumerable_keys o ↔
  (∃ p, (k, p) ∈ o_props o ∧ p_enumerable p = true ∧ is_stack k = false)
  ∨ (k = "stack" ∧ ∃ v, o_stack o = StackValue v true).
Proof.
  unfold own_enumerable_keys. rewrite elem_of_app, list_elem_of_fmap. split.
  - intros [([k' p] & -> & Hin)|Hs].
    + apply list_elem_of_filter in Hin as [[? ?] ?]. left. eauto.
    + right. destruct (o_stack o) as [|v [|]|]; try by apply elem_of_nil in Hs.
      apply list_elem_of_singleton in Hs. eauto.
  - intros [(p & Hin & He & Hs)|[-> [v Hv]]].
    + left. exists (k, p). split; [done|]. by apply list_elem_of_filter.
    + right. rewrite Hv. by apply list_elem_of_singleton.
Qed.

Lemma elem_of_own_enumerable_keys_delete o k k' :
  k' ∈ own_enumerable_keys (delete_property k o) ↔
  k' ∈ own_enumerable_keys o ∧ k' ≠ k.
Proof.
  rewrite !elem_of_own_enumerable_keys. unfold delete_property.
  destruct (is_stack k) eqn:Hk; simpl.
  - apply String.eqb_eq in Hk. subst k. split.
    + intros [(p & Hin & He & Hs)|[_ [v Hv]]]; [|done].
      split; [eauto|]. intros ->. done.
    + intros [[(p & Hin & He & Hs)|[-> _]] Hne]; [eauto|done].
  - apply eqb_false_ne in Hk. unfold own_delete. split.
    + intros [(p & Hin & He & Hs)|[-> Hv]].
      * apply list_elem_of_filter in Hin as [Hne Hin]. simpl in Hne.
        apply eqb_false_ne in Hne. split; [eauto|done].
      * split; [by right|]. intros <-. by apply Hk.
    + intros [[(p & Hin & He & Hs)|[-> Hv]] Hne].
      * left. exists p. split_and!; [|done|done].
        apply list_elem_of_filter. split; [|done]. simpl. by apply eqb_false_ne.
      * by right.
Qed.

Lemma elem_of_own_enumerable_keys_clear ks : ∀ o k,
  k ∈ own_enumerable_keys (clear_object o ks) ↔
  k ∈ own_enumerable_keys o ∧ (k ∈ ks → kept k = true).
Proof.
  unfold clear_object. induction ks as [|k0 ks IH]; intros o k; simpl.
  - split; [|by intros [? _]]. intros ?. split; [done|]. by intros ?%elem_of_nil.
  - rewrite IH. destruct (kept k0) eqn:Hk0.
    + split; intros [Hin Hk]; (split; [done|]).
      * intros [->|?]%elem_of_cons; auto.
      * intros ?. apply Hk. apply elem_of_cons. auto.
    + rewrite elem_of_own_enumerable_keys_delete. split.
      * intros [[Hin Hne] Hk]. split; [done|].
        intros [->|?]%elem_of_cons; [done|auto].
      * intros [Hin Hk]. split_and!; [done| |].
        -- intros ->. rewrite Hk in Hk0; [done|]. apply elem_of_cons. auto.
        -- intros ?. apply Hk. apply elem_of_cons. auto.
Qed.

Lemma stack_clear_object ks : ∀ o,
  "stack" ∉ ks → o_stack (clear_object o ks) = o_stack o.
Proof.
  unfold clear_object. induction ks as [|k0 ks IH]; intros o Hnin; [done|].
  simpl. apply not_elem_of_cons in Hnin as [Hne Hnin].
  rewrite IH by done. destruct (kept k0); [done|].
  unfold delete_property. destruct (is_stack k0) eqn:E; [|done].
  apply String.eqb_eq in E. by subst k0.
Qed.

Lemma stack_clear_object_in ks : ∀ o,
  "stack" ∈ ks → o_stack (clear_object o ks) = NoStack.
Proof.
  induction ks as [|k0 ks IH]; intros o Hin; [by apply elem_of_nil in Hin|].
  destruct (decide ("stack" ∈ ks)) as [Hin'|Hnin].
  - by apply IH.
  - apply elem_of_cons in Hin as [<-|?]; [|done].
    change (o_stack (clear_object (delete_property "stack" o) ks) = NoStack).
    by rewrite stack_clear_object.
Qed.

Lemma stack_in_for_in_keys o :
  "stack" ∈ for_in_keys o → ∃ v, o_stack o = StackValue v true.
Proof.
  unfold for_in_keys. intros [Hin|Hin]%elem_of_app.
  - apply elem_of_own_enumerable_keys in Hin as [(p & _ & _ & Hs)|[_ Hv]]; done.
  - apply list_elem_of_filter in Hin as [_ Hin].
    destruct (o_proto o); simpl in Hin; try by apply elem_of_nil in Hin.
    repeat (apply elem_of_cons in Hin as [Hin|Hin]; [done|]).
    by apply elem_of_nil in Hin.
Qed.

(** The loop of lines 152-157 acts on the object at [err] alone. *)
Lemma clear_custom_heap err st o :
  heap st !! err = Some o →
  heap (clear_custom err st) !! err = Some (clear_object o (for_in_keys o)).
Proof.
  intros Ho. unfold clear_custom, keys, deref. rewrite Ho.
  generalize (for_in_keys o) as ks. intros ks. revert st o Ho.
  unfold clear_object.
  induction ks as [|k ks IH]; intros st o Ho; [done|].
  simpl. destruct (kept k); [by apply IH|].
  apply IH. unfold modify. simpl. by rewrite list_lookup_alter_eq, Ho.
Qed.

(** C3, as amended.  When [releaseError] pools an object, it is pushed on top
    of the slot of its status, and by then every own enumerable property
    other than [status], [statusCode], [expose], [message] and [name] has
    been removed from it.  An own [stack] that is not enumerable (the
    accessor, or the value a capture stored) is not removed by the release. *)
Theorem releaseError_strips_own_enumerable (st : state) (err : loc)
    (o : object) (pool : list loc) :
  heap st !! err = Some o →
  errorPool st !! to_String (release_status st err) = Some pool →
  length pool < poolSize →
  let st' := releaseError err st in
  errorPool st' !! to_String (release_status st err) = Some (pool ++ [err])
  ∧ ∃ o', heap st' !! err = Some o'
      ∧ (∀ k, k ∈ own_enumerable_keys o' → kept k = true)
      ∧ match o_stack o with
        | StackValue _ true => o_stack o' = NoStack
        | slot => o_stack o' = slot
        end.
Proof.
  intros Ho Hp Hlen st'. subst st'. unfold releaseError.
  rewrite Hp, bool_decide_eq_true_2 by done. cbn [errorPool heap].
  split; [by rewrite lookup_insert_eq|].
  exists (clear_object o (for_in_keys o)).
  split; [by apply clear_custom_heap|]. split.
  - intros k [Hin Hk]%elem_of_own_enumerable_keys_clear. apply Hk.
    unfold for_in_keys. apply elem_of_app. by left.
  - destruct (o_stack o) as [|v [|]|sv c] eqn:Hs.
    + rewrite stack_clear_object, Hs; [done|].
      intros [v Hv]%stack_in_for_in_keys. congruence.
    + apply stack_clear_object_in.
      unfold for_in_keys. apply elem_of_app. left.
      apply elem_of_own_enumerable_keys. right. eauto.
    + rewrite stack_clear_object, Hs; [done|].
      intros [v' Hv]%stack_in_for_in_keys. congruence.
    + rewrite stack_clear_object, Hs; [done|].
      intros [v Hv]%stack_in_for_in_keys. congruence.
Qed.

(** ** Reads of an object under changes of the heap *)

Lemma deref_modify_other v v' f st :
  v ≠ v' → deref (modify v f st) v' = deref st v'.
Proof.
  intros Hne. destruct v as [| | | | | | | |l]; try done.
  destruct v' as [| | | | | | | |l']; try done.
  apply deref_modify_ne. congruence.
Qed.


Lemma instanceof_Error_inv st v :
  instanceof_Error st v = true →
  ∃ l o, v = VObject l ∧ heap st !! l = Some o ∧ is_Error o = true.
Proof.
  unfold instanceof_Error, deref. destruct v as [| | | | | | | |l]; try done.
  destruct (heap st !! l) as [o|] eqn:E; [|done]. eauto.
Qed.




Lemma read_deref st st' v k : deref st' v = deref st v → read st' v k = read st v k.
Proof. unfold read. by intros ->. Qed.

(** Lines 131-132 on an existing object. *)
Lemma stamp_reads err status st o :
  deref st err = Some o →
  read (stamp err status st) err "status" = VNumber status
  ∧ read (stamp err status st) err "statusCode" = VNumber status
  ∧ read (stamp err status st) err "expose" = VBoolean (less_than status 500)
  ∧ ∃ o', deref (stamp err status st) err = Some o' ∧ o_proto o' = o_proto o.
Proof.
  intros Ho. unfold stamp, read.
  rewrite !deref_modify_eq, Ho. cbn [fmap option_fmap option_map].
  split_and!.
  - by rewrite get_assign_eq.
  - rewrite get_assign_ne by done. by rewrite get_assign_eq.
  - rewrite !get_assign_ne by done. by rewrite get_assign_eq.
  - eexists. split; [done|]. by rewrite !proto_assign.
Qed.

Lemma stamp_deref_other err status st v :
  err ≠ v → deref (stamp err status st) v = deref st v.
Proof. intros Hne. unfold stamp. by rewrite !deref_modify_other. Qed.




(** ** What the argument loop leaves in its variables *)

Lemma logical_or_NaN a b : logical_or a b = VNumber NaN → b = VNumber NaN.
Proof. unfold logical_or. destruct (truthy a) eqn:E; [|done]. by intros ->. Qed.

Lemma scan_locals st args : ∀ i a0 a,
  scan st i args a0 = inr a →
  (a_err a = a_err a0 ∨ (a_err a ∈ args ∧ instanceof_Error st (a_err a) = true))
  ∧ (a_props a = a_props a0
     ∨ (a_props a ∈ args ∧ instanceof_Error st (a_props a) = false))
  ∧ (a_status a = VNumber NaN →
     a_status a0 = VNumber NaN ∨ (i = 0 ∧ args !! 0 = Some (VNumber NaN))).
Proof.
  induction args as [|arg rest IH]; intros i a0 a Hscan.
  { simpl in Hscan. injection Hscan as <-. auto. }
  cbn [scan] in Hscan.
  assert (∀ x, x ∈ rest → x ∈ arg :: rest) as Hin
    by (intros x ?; apply elem_of_cons; auto).
  assert (arg ∈ arg :: rest) as Hhere by (apply elem_of_cons; auto).
  destruct (String.eqb (typeof arg) "object" && instanceof_Error st arg) eqn:E1.
  { apply andb_true_iff in E1 as [_ E1].
    apply IH in Hscan as (He & Hp & Hs). cbn [a_err a_props a_status] in *.
    split_and!.
    - destruct He as [->|[? ?]]; auto.
    - destruct Hp as [?|[? ?]]; auto.
    - intros Hn. destruct (Hs Hn) as [Hn'|[? _]]; [|lia].
      left. by apply logical_or_NaN in Hn'. }
  destruct (String.eqb (typeof arg) "number" && bool_decide (i = 0)) eqn:E2.
  { apply andb_true_iff in E2 as [_ E2]. apply bool_decide_eq_true in E2.
    apply IH in Hscan as (He & Hp & Hs). cbn [a_err a_props a_status] in *.
    split_and!.
    - destruct He as [?|[? ?]]; auto.
    - destruct Hp as [?|[? ?]]; auto.
    - intros Hn. destruct (Hs Hn) as [Hn'|[? _]]; [|lia].
      right. subst arg. auto. }
  destruct (String.eqb (typeof arg) "string") eqn:E3.
  { apply IH in Hscan as (He & Hp & Hs). cbn [a_err a_props a_status] in *.
    split_and!.
    - destruct He as [?|[? ?]]; auto.
    - destruct Hp as [?|[? ?]]; auto.
    - intros Hn. destruct (Hs Hn) as [Hn'|[? _]]; [auto|lia]. }
  destruct (String.eqb (typeof arg) "object") eqn:E4; [|done].
  simpl in E1.
  apply IH in Hscan as (He & Hp & Hs). cbn [a_err a_props a_status] in *.
  split_and!.
  - destruct He as [?|[? ?]]; auto.
  - destruct Hp as [->|[? ?]]; auto.
  - intros Hn. destruct (Hs Hn) as [Hn'|[? _]]; [auto|lia].
Qed.

Lemma resolve_status_NaN `{Collaborators} status :
  resolve_status status = NaN → status = VNumber NaN.
Proof.
  unfold resolve_status. destruct status as [| | |n| | | | |]; try done.
  destruct (_ && _); [done|]. by intros ->.
Qed.

(** ** The result of the slow path *)

Lemma deref_snoc h o p c d :
  deref (State (h ++ [o]) p c d) (VObject (length h)) = Some o.
Proof. unfold deref. simpl. by rewrite lookup_app_r, Nat.sub_diag. Qed.


Lemma instanceof_Error_by_proto st st' v v' :
  o_proto <$> deref st' v' = o_proto <$> deref st v →
  instanceof_Error st' v' = instanceof_Error st v
  ∧ instanceof_HttpError st' v' = instanceof_HttpError st v.
Proof.
  unfold instanceof_Error, instanceof_HttpError, is_Error, is_HttpError.
  destruct (deref st' v') as [o'|], (deref st v) as [o|]; simpl; try done.
  by intros [= ->].
Qed.


Section SlowPath.
Context `{Collaborators}.

Lemma captureStackTrace_snoc h o p c d :
  captureStackTrace (VObject (length h)) (State (h ++ [o]) p c d)
  = State (h ++ [defineProperty "stack" (VString (stack_text c)) false o]) p (S c) d.
Proof. unfold captureStackTrace. cbn [captures]. by rewrite modify_snoc. Qed.


End SlowPath.

(** ** The result of the factory (C2, C9) *)





Section Result.
Context `{Collaborators}.

(** The state in which [build] runs reads every object of the caller as the
    caller's state does. *)
Lemma deref_before_build status o st v :
  is_Some (deref st v) → deref (warn_non_error status (alloc o st).1) v = deref st v.
Proof.
  intros Hv. unfold deref. rewrite heap_warn_non_error.
  by apply (deref_alloc_old o st v).
Qed.


(** What a returning call went through: the scan, and then the pool or the
    slow path, in a state that reads the caller's objects as before. *)
Lemma createError_inv arguments st st' r :
  createError arguments st = Return st' r →
  ∃ a st2,
    (∀ v, is_Some (deref st v) → deref st2 v = deref st v)
    ∧ length (heap st2) = S (length (heap st))
    ∧ errorPool st2 = errorPool st
    ∧ (a_err a = VUndefined
       ∨ (a_err a ∈ arguments ∧ instanceof_Error st2 (a_err a) = true))
    ∧ instanceof_Error st2 (a_props a) = false
    ∧ ((a_props a = VObject (length (heap st)) ∧ keys st2 (a_props a) = [])
       ∨ a_props a ∈ arguments)
    ∧ (resolve_status (a_status a) = NaN → arguments !! 0 = Some (VNumber NaN))
    ∧ (fast_path (resolve_status (a_status a)) st2 = Some (st', r)
       ∨ slow_path a (resolve_status (a_status a)) st2 = (st', r)).
Proof.
  rewrite createError_scan. intros Hc.
  set (o := Object ObjectPrototype [] NoStack) in *.
  destruct (scan (alloc o st).1 0 arguments (start (length (heap st))))
    as [m|a] eqn:Hscan; [done|].
  exists a, (warn_non_error (a_status a) (alloc o st).1).
  apply scan_locals in Hscan as (He & Hp & Hs). cbn [start a_err a_props a_status] in *.
  assert (∀ v, instanceof_Error (warn_non_error (a_status a) (alloc o st).1) v
               = instanceof_Error (alloc o st).1 v) as Hie.
  { intros v. unfold instanceof_Error, deref. by rewrite heap_warn_non_error. }
  split_and!.
  - intros v. apply deref_before_build.
  - rewrite heap_warn_non_error. unfold alloc. simpl. rewrite length_app. simpl. lia.
  - by rewrite warn_non_error_errorPool.
  - destruct He as [?|[? ?]]; [by left|right]. by rewrite Hie.
  - rewrite Hie. destruct Hp as [->|[? ?]]; [|done].
    unfold instanceof_Error, alloc. cbn [fst]. by rewrite deref_snoc.
  - destruct Hp as [->|[? ?]]; [left|by right]. split; [done|].
    unfold keys, deref. rewrite heap_warn_non_error.
    unfold alloc. cbn [fst heap]. by rewrite lookup_app_r, Nat.sub_diag.
  - intros Hn%resolve_status_NaN. destruct (Hs Hn) as [?|[_ ?]]; done.
  - unfold build in Hc.
    destruct (if _ && _ && _ then fast_path _ _ else None) as [[st1 pooled]|] eqn:Hf.
    + destruct (_ && _ && _); [|done]. left. by simplify_eq.
    + right. destruct (slow_path a _ _) as [st1 err]. by simplify_eq.
Qed.






End Result.

(** ** Sample runs: what the pool hands back (C1, C4), and where C2, C3 and
    C9 as stated do not hold *)

(** C1: the claim holds on the slow path and fails on the pool path.
    [createError(404, 'custom')], released and re-acquired by
    [createError(404)], is handed back as it was released: the call with the
    single argument 404 returns the same object, whose [message] is still
    ['custom'] and not the reason phrase of 404. *)
Lemma pooled_instance_keeps_custom_message :
  let st1 := custom_404.1 in
  let err := custom_404.2 in
  let st2 := releaseError (address err) st1 in
  let st3 := (returned (createError (H := node) [VNumber (Int 404)] st2)).1 in
  createError (H := node) [VNumber (Int 404); VString "custom"] initial_state
    = Return st1 err
  ∧ errorPool st2 !! "404" = Some [address err]
  ∧ createError (H := node) [VNumber (Int 404)] st2 = Return st3 err
  ∧ read st3 err "status" = VNumber (Int 404)
  ∧ read st3 err "message" = VString "custom"
  ∧ statuses_message (H := node) (Int 404) = VString "Not Found".
Proof. vm_compute. repeat split. Qed.

(** C4: an instance that was released and re-acquired has no own [stack] at
    all: [delete pooled.stack] removed the property, accessor included.  The
    next read finds nothing and returns [undefined]; no capture happens, at
    that read or at any later one. *)
Lemma reacquired_instance_has_no_stack :
  let err := first_404.2 in
  let st3 := second_404.1 in
  second_404.2 = err
  ∧ stack_at st3 (address err) = Some NoStack
  ∧ get_stack (H := node) (address err) st3 = (st3, VUndefined)
  ∧ ∀ n, captures (read_stack_times (H := node) n (address err) st3) = captures st3.
Proof.
  assert (stack_at second_404.1 (address first_404.2) = Some NoStack) as Hs
    by (vm_compute; reflexivity).
  pose proof (get_stack_absent (H := node) _ _ Hs) as Hg.
  split_and!; [by vm_compute|done|done|].
  intros n. by rewrite (read_stack_times_fixed n _ _ _ Hg).
Qed.


(** C3 as stated does not hold: [releaseError] pools the instance of
    [createError(404, 'custom')], and the pooled instance still has an own
    [stack], which is none of the five properties, and still has the custom
    [message], which is not the reason phrase of its status. *)
Lemma release_keeps_stack_and_custom_message :
  let st1 := custom_404.1 in
  let err := address custom_404.2 in
  let st2 := releaseError err st1 in
  errorPool st2 !! "404" = Some [err]
  ∧ (λ o, has_own o "stack") <$> heap st2 !! err = Some true
  ∧ kept "stack" = false
  ∧ read st2 (VObject err) "message" = VString "custom"
  ∧ statuses_message (H := node) (Int 404) = VString "Not Found".
Proof. vm_compute. repeat split. Qed.


(** ** The theorems at sample inputs *)



(** [releaseError] on the instance of [createError(404, 'custom')]: it is
    pooled, no own enumerable property besides the five is left, and the
    captured [stack], not enumerable, is still there. *)
Lemma releaseError_strips_own_enumerable_at_custom_404 :
  let st := custom_404.1 in
  let err := address custom_404.2 in
  errorPool (releaseError err st) !! "404" = Some [err]
  ∧ ∃ o', heap (releaseError err st) !! err = Some o'
      ∧ (∀ k, k ∈ own_enumerable_keys o' → kept k = true)
      ∧ o_stack o' = StackValue (VString (stack_text (Collaborators := node) 0)) false.
Proof.
  intros st err.
  exact (releaseError_strips_own_enumerable st err
           (Object (VariantPrototype Client 404)
              [("message", Property (VString "custom") true);
               ("name", Property (VString "NotFoundError") false)]
              (StackValue (VString (stack_text (Collaborators := node) 0)) false))
           []
           ltac:(vm_compute; reflexivity)
           ltac:(vm_compute; reflexivity)
           ltac:(unfold poolSize; simpl; lia)).
Defined.


(** [createError(404, {})] after a [createError(404)] was released: the
    released instance comes back. *)
Lemma keyless_bag_is_served_from_pool_at_404 :
  ∃ st',
    createError (H := node) [VNumber (Int 404); VObject 2] released_404_and_empty_bag
      = Return st' first_404.2
    ∧ errorPool st' !! "404" = Some [].
Proof.
  destruct (keyless_bag_is_served_from_pool (H := node) released_404_and_empty_bag
              (VObject 2) [] (address first_404.2)
              eq_refl
              ltac:(vm_compute; reflexivity)
              ltac:(vm_compute; reflexivity)) as [Hempty _].
  destruct (Hempty ltac:(vm_compute; reflexivity)) as (st' & Hc & Hp).
  exists st'. split; [exact Hc|].
  rewrite Hp. apply lookup_insert_eq.
Defined.


(** ** The factory without the pool, and the pool's hand-back in general *)

Section WithoutPool.
Context `{Collaborators}.

(** The constructor registered for a 4xx or 5xx code that has a reason
    phrase. *)
Lemma createError_at_known_code c phrase :
  (400 ≤ c < 600)%Z → statuses !! c = Some phrase →
  createError_at (Int c) =
  Some (Constructor (if bool_decide (c < 500)%Z then Client else Server) c
          (toClassName (toIdentifier phrase)) (VString phrase)).
Proof.
  intros Hc Hphrase. unfold createError_at.
  rewrite populateConstructorExports_lookup.
  rewrite decide_True.
  2:{ unfold statuses_codes. apply list_elem_of_fmap. exists (c, phrase).
      split; [done|]. by apply elem_of_map_to_list. }
  unfold createClientErrorConstructor, createServerErrorConstructor, statuses_message.
  rewrite Hphrase. cbn [default of_option].
  case_bool_decide as Hlt.
  - rewrite codeClass_4xx by lia. done.
  - rewrite codeClass_5xx by lia. done.
Qed.

(** With nothing in the pool of [c], [createError(c)] for a 4xx or 5xx code
    that has a reason phrase builds a new instance with [status] and
    [statusCode] equal to [c], [expose] equal to [c < 500], the reason phrase
    as [message], and the class name as [name]. *)
Lemma createError_single_status_without_pool (c : Z) (phrase : string) (st : state) :
  (400 ≤ c < 600)%Z →
  statuses !! c = Some phrase →
  errorPool st !! pretty c = None ∨ errorPool st !! pretty c = Some [] →
  ∃ st',
    createError [VNumber (Int c)] st = Return st' (VObject (S (length (heap st))))
    ∧ read st' (VObject (S (length (heap st)))) "status" = VNumber (Int c)
    ∧ read st' (VObject (S (length (heap st)))) "statusCode" = VNumber (Int c)
    ∧ read st' (VObject (S (length (heap st)))) "expose" = VBoolean (bool_decide (c < 500)%Z)
    ∧ read st' (VObject (S (length (heap st)))) "message" = VString phrase
    ∧ read st' (VObject (S (length (heap st)))) "name"
      = VString (toClassName (toIdentifier phrase))
    ∧ isHttpError st' (VObject (S (length (heap st)))) = true.
Proof.
  intros Hc Hphrase Hpool. rewrite createError_scan. unfold start.
  cbn [scan typeof a_status String.eqb Ascii.eqb Bool.eqb andb].
  rewrite bool_decide_eq_true_2 by done. cbn [a_status a_err a_msg a_props].
  assert (resolve_status (VNumber (Int c)) = Int c) as ->.
  { unfold resolve_status, less_than, at_least. rewrite !bool_decide_eq_false_2 by lia.
    by rewrite andb_false_r. }
  assert (∀ st0, warn_non_error (VNumber (Int c)) st0 = st0) as Hw.
  { intros st0. unfold warn_non_error, less_than, at_least. by rewrite !bool_decide_eq_false_2 by lia. }
  rewrite Hw. unfold build. cbn [a_err a_msg a_props truthy strict_eq negb andb].
  assert (fast_path (Int c) (alloc (Object ObjectPrototype [] NoStack) st).1 = None) as Hfast.
  { unfold fast_path, alloc. cbn [fst errorPool number_to_String].
    by destruct Hpool as [-> | ->]. }
  assert (keys (alloc (Object ObjectPrototype [] NoStack) st).1 (VObject (length (heap st))) = [])
    as Hkeys.
  { unfold keys, alloc, deref. cbn [fst heap]. by rewrite lookup_app_r, Nat.sub_diag. }
  rewrite Hkeys, Hfast.
  unfold slow_path, resolve_constructor.
  rewrite (createError_at_known_code c phrase) by done.
  cbn [a_err a_msg a_props truthy negb].
  rewrite new_eq. unfold alloc. cbn [fst snd heap errorPool captures deprecations].
  rewrite captureStackTrace_snoc.
  set (o := defineProperty "stack" _ false _).
  set (h := heap st ++ [Object ObjectPrototype [] NoStack]).
  assert (length h = S (length (heap st))) as Hlen
    by (subst h; rewrite length_app; simpl; lia).
  set (st1 := State (h ++ [o]) _ _ _).
  assert (deref st1 (VObject (length h)) = Some o) as Ho by apply deref_snoc.
  assert (instanceof st1 (VObject (length h))
            (Constructor (if bool_decide (c < 500)%Z then Client else Server) c
               (toClassName (toIdentifier phrase)) (VString phrase)) = true) as Hinst.
  { unfold instanceof. rewrite Ho. by apply bool_decide_eq_true. }
  assert (read st1 (VObject (length h)) "status" = VNumber (Int c)) as Hstatus.
  { unfold read. by rewrite Ho. }
  rewrite Hinst, Hstatus. cbn [negb orb strict_eq number_eq].
  rewrite bool_decide_eq_true_2 by done. cbn [negb].
  assert (copy_props (VObject (length (heap st))) (VObject (length h)) st1 = st1) as ->.
  { unfold copy_props, keys, deref. subst st1 h. cbn [heap].
    rewrite <- app_assoc. by rewrite lookup_app_r, Nat.sub_diag. }
  rewrite <- Hlen. exists st1.
  unfold isHttpError, instanceof_HttpError, read. rewrite Ho.
  split_and!; try done.
  subst o. cbn. by destruct (bool_decide (c < 500)%Z).
Qed.

(** The instance the pool hands back has no own [stack]; a read of it
    returns [undefined] and captures nothing. *)
Lemma fast_path_leaves_no_stack status st st' l :
  fast_path status st = Some (st', VObject l) →
  is_Some (heap st !! l) →
  stack_at st' l = Some NoStack ∧ get_stack l st' = (st', VUndefined).
Proof.
  unfold fast_path. intros Hf [o Ho].
  destruct (errorPool st !! number_to_String status) as [pool|]; [|done].
  destruct (last pool) as [pooled|]; [|done].
  injection Hf as <- ->.
  assert (stack_at (modify (VObject l) (delete_property "stack")
                      (State (heap st)
                         (<[number_to_String status := removelast pool]> (errorPool st))
                         (captures st) (deprecations st))) l = Some NoStack) as Hs.
  { unfold stack_at, modify. cbn [heap]. by rewrite list_lookup_alter_eq, Ho. }
  split; [done|]. by apply get_stack_absent.
Qed.

End WithoutPool.

(** ** Why the provisos of C2 and C9 are there *)

(** [createError(NaN)] keeps [NaN]: the result's [status] is not [===] to its
    [statusCode], and [isHttpError] is false for it. *)
Lemma NaN_status_is_kept :
  read created_NaN.1 created_NaN.2 "status" = VNumber NaN
  ∧ read created_NaN.1 created_NaN.2 "statusCode" = VNumber NaN
  ∧ consistent created_NaN.1 created_NaN.2 = false
  ∧ isHttpError created_NaN.1 created_NaN.2 = false.
Proof. vm_compute. repeat split. Qed.

(** An adopted instance of the resolved constructor whose [status] matches is
    returned as it is found (line 129), here with [statusCode] 500 beside
    [status] 404. *)
Lemma adopted_instance_is_not_stamped :
  adopted_after_assignment.2 = VObject 0
  ∧ read adopted_after_assignment.1 (VObject 0) "status" = VNumber (Int 404)
  ∧ read adopted_after_assignment.1 (VObject 0) "statusCode" = VNumber (Int 500)
  ∧ consistent adopted_after_assignment.1 (VObject 0) = false.
Proof. vm_compute. repeat split. Qed.

(** The pool hands back what was released: an [expose] copied from a bag
    survives the release and comes back from [createError(404)]. *)
Lemma pooled_instance_keeps_bag_expose :
  read pooled_after_bag.1 pooled_after_bag.2 "expose" = VString "yes"
  ∧ consistent pooled_after_bag.1 pooled_after_bag.2 = false.
Proof. vm_compute. repeat split. Qed.

(** A released generic error with [status] 404 and no [expose] comes back
    from [createError(404)], and [isHttpError] is false for it. *)
Lemma pooled_plain_error_fails_isHttpError :
  pooled_plain_error.2 = VObject 0
  ∧ read pooled_plain_error.1 (VObject 0) "message" = VString "boom"
  ∧ isHttpError pooled_plain_error.1 (VObject 0) = false.
Proof. vm_compute. repeat split. Qed.

(** * More of the module *)

(** ** [codeClass] and [toClassName] on their own *)

(** [codeClass] on each status below 1000, by running it. *)
Lemma codeClass_below_1000 z :
  (0 ≤ z < 1000)%Z →
  codeClass (Int z) =
  Int (if bool_decide (z < 10)%Z then z * 100
       else if bool_decide (z < 100)%Z then z / 10 * 100
       else z / 100 * 100).
Proof.
  intros Hz.
  assert (forallb
            (λ z, number_eq (codeClass (Int z))
                    (Int (if bool_decide (z < 10)%Z then z * 100
                          else if bool_decide (z < 100)%Z then z / 10 * 100
                          else z / 100 * 100)))
            (seqZ 0 1000) = true) as Hall by (vm_compute; reflexivity).
  rewrite forallb_forall in Hall.
  apply number_eq_true, Hall, list_elem_of_In, elem_of_seqZ. lia.
Qed.

Lemma codeClass_negative z : (z < 0)%Z → codeClass (Int z) = Int 0.
Proof. destruct z as [|p|p]; try lia. intros _. reflexivity. Qed.

(** X1.  [codeClass] keeps the leading decimal digit of a status and puts two
    zeros behind it: a three-digit status is rounded down to its hundred, but
    a status of one or two digits is classed by its first digit as well (4 and
    45 are of class 400); a negative status is of class 0 and [NaN] of class
    [NaN]. *)
Theorem codeClass_keeps_leading_digit :
  (∀ z, (100 ≤ z < 1000)%Z → codeClass (Int z) = Int (z / 100 * 100))
  ∧ (∀ z, (10 ≤ z < 100)%Z → codeClass (Int z) = Int (z / 10 * 100))
  ∧ (∀ z, (0 ≤ z < 10)%Z → codeClass (Int z) = Int (z * 100))
  ∧ (∀ z, (z < 0)%Z → codeClass (Int z) = Int 0)
  ∧ codeClass NaN = NaN.
Proof.
  split_and!.
  - intros z Hz. rewrite codeClass_below_1000 by lia.
    by rewrite !bool_decide_eq_false_2 by lia.
  - intros z Hz. rewrite codeClass_below_1000 by lia.
    rewrite bool_decide_eq_false_2 by lia. by rewrite bool_decide_eq_true_2 by lia.
  - intros z Hz. rewrite codeClass_below_1000 by lia.
    by rewrite bool_decide_eq_true_2 by lia.
  - apply codeClass_negative.
  - reflexivity.
Qed.

Lemma substring_app_r (s t : string) (n : nat) :
  String.substring (String.length s) n (s +:+ t) = String.substring 0 n t.
Proof. induction s as [|c s IH]; [done|]. simpl. apply IH. Qed.

Lemma length_app_string (s t : string) :
  String.length (s +:+ t) = String.length s + String.length t.
Proof. induction s as [|c s IH]; [done|]. simpl. by rewrite IH. Qed.

Lemma slice_last5_app_Error (name : string) : slice_last5 (name +:+ "Error") = "Error".
Proof.
  unfold slice_last5. rewrite length_app_string.
  replace (String.length name + String.length "Error" - 5) with (String.length name)
    by (simpl; lia).
  by rewrite substring_app_r.
Qed.

(** X2.  [toClassName] always yields a name that ends in [Error], leaves a
    name that ends so as it is, and for any other name appends [Error]; it
    changes nothing when applied a second time. *)
Theorem toClassName_ends_in_Error (name : string) :
  slice_last5 (toClassName name) = "Error"
  ∧ (slice_last5 name = "Error" → toClassName name = name)
  ∧ (slice_last5 name ≠ "Error" → toClassName name = name +:+ "Error")
  ∧ toClassName (toClassName name) = toClassName name.
Proof.
  assert (slice_last5 (toClassName name) = "Error") as Hend.
  { unfold toClassName. destruct (String.eqb _ "Error") eqn:E.
    - by apply String.eqb_eq in E.
    - apply slice_last5_app_Error. }
  split_and!; [done| | |].
  - intros E. unfold toClassName. by rewrite E.
  - intros E. unfold toClassName. apply eqb_false_ne in E. by rewrite E.
  - unfold toClassName at 1. by rewrite Hend.
Qed.

(** ** The table of constructors, by status code *)

Section RegistryByCode.
Context `{Collaborators}.

Lemma createError_at_other_class c :
  (100 ≤ c < 400 ∨ 600 ≤ c < 1000)%Z → createError_at (Int c) = None.
Proof.
  intros Hc. unfold createError_at. rewrite populateConstructorExports_lookup.
  case_decide; [|done].
  rewrite codeClass_below_1000 by lia.
  rewrite !bool_decide_eq_false_2 by lia.
  unfold number_eq.
  rewrite !bool_decide_eq_false_2; [done| |]; Z.div_mod_to_equations; lia.
Qed.

Lemma createError_at_unknown c : statuses !! c = None → createError_at (Int c) = None.
Proof.
  intros Hc. unfold createError_at. rewrite populateConstructorExports_lookup.
  case_decide as Hin; [|done].
  unfold statuses_codes in Hin. apply list_elem_of_fmap in Hin as ([z s] & -> & Hin).
  apply elem_of_map_to_list in Hin. simpl in Hc. congruence.
Qed.

(** X3.  For a three-digit status code, the module registers a constructor
    exactly when the code has a reason phrase and lies from 400 up to, not
    including, 600: a client constructor below 500 and a server constructor
    from 500 on, closed over the code, the class name of the phrase's
    identifier, and the phrase as default message.  No constructor is
    registered for a 1xx, 2xx or 3xx code, nor for a code without a phrase. *)
Theorem constructors_are_registered_for_4xx_and_5xx (c : Z) :
  (100 ≤ c < 1000)%Z →
  createError_at (Int c) =
  match statuses !! c with
  | Some phrase =>
      if bool_decide (400 ≤ c < 600)%Z
      then Some (Constructor (if bool_decide (c < 500)%Z then Client else Server) c
                   (toClassName (toIdentifier phrase)) (VString phrase))
      else None
  | None => None
  end.
Proof.
  intros Hc. destruct (statuses !! c) as [phrase|] eqn:Hphrase.
  - case_bool_decide as Hin.
    + by apply createError_at_known_code.
    + apply createError_at_other_class. lia.
  - by apply createError_at_unknown.
Qed.

End RegistryByCode.

(** The table of [node] at 404 and at 200. *)
Lemma constructors_are_registered_at_404_and_200 :
  createError_at (H := node) (Int 404)
  = Some (Constructor Client 404 "NotFoundError" (VString "Not Found"))
  ∧ createError_at (H := node) (Int 200) = None.
Proof.
  split.
  - rewrite (constructors_are_registered_for_4xx_and_5xx (H := node) 404) by lia.
    reflexivity.
  - rewrite (constructors_are_registered_for_4xx_and_5xx (H := node) 200) by lia.
    reflexivity.
Defined.

(** ** The factory on a status code, a message and a property bag *)


Lemma copy_props_deref_other props err st v :
  err ≠ v → deref (copy_props props err st) v = deref st v.
Proof.
  intros Hne. unfold copy_props. generalize (keys st props). intros ks.
  apply (foldl_invariant (λ st', deref st' v = deref st v)); [done|].
  intros st1 key <-. destruct (_ && _); [|done]. by apply deref_modify_other.
Qed.

Lemma copy_props_captures props err st :
  captures (copy_props props err st) = captures st.
Proof.
  unfold copy_props. generalize (keys st props). intros ks.
  apply (foldl_invariant (λ st', captures st' = captures st)); [done|].
  intros a b Ha. destruct (_ && _); [|done]. by rewrite modify_captures.
Qed.

Lemma copy_props_length props err st :
  length (heap (copy_props props err st)) = length (heap st).
Proof.
  unfold copy_props. generalize (keys st props). intros ks.
  apply (foldl_invariant (λ st', length (heap st') = length (heap st))); [done|].
  intros a b Ha. destruct (_ && _); [|done]. by rewrite modify_length.
Qed.

Lemma stamp_captures err status st : captures (stamp err status st) = captures st.
Proof. unfold stamp. by rewrite !modify_captures. Qed.

Lemma stamp_length err status st : length (heap (stamp err status st)) = length (heap st).
Proof. unfold stamp. by rewrite !modify_length. Qed.

Section KnownCode.
Context `{Collaborators}.

Lemma resolve_status_inside c :
  (400 ≤ c < 600)%Z → resolve_status (VNumber (Int c)) = Int c.
Proof.
  intros Hc. unfold resolve_status, less_than, at_least.
  rewrite !bool_decide_eq_false_2 by lia. by rewrite andb_false_r.
Qed.

Lemma warn_non_error_inside c st :
  (400 ≤ c < 600)%Z → warn_non_error (VNumber (Int c)) st = st.
Proof.
  intros Hc. unfold warn_non_error, less_than, at_least.
  by rewrite !bool_decide_eq_false_2 by lia.
Qed.

(** Lines 119-133 for a 4xx or 5xx code with a reason phrase, when no error
    was adopted: the state before the bag is copied. *)
Lemma slow_path_known_code c phrase msg props st :
  (400 ≤ c < 600)%Z →
  statuses !! c = Some phrase →
  slow_path (Locals VUndefined msg (VNumber (Int c)) props) (Int c) st =
  (copy_props props (VObject (length (heap st)))
     (State (heap st ++ [built_instance c phrase msg (captures st)])
        (errorPool st) (S (captures st)) (deprecations st)),
   VObject (length (heap st))).
Proof.
  intros Hc Hphrase. unfold slow_path, resolve_constructor.
  rewrite (createError_at_known_code c phrase) by done.
  cbn [a_err a_msg a_props truthy negb].
  rewrite new_eq. unfold alloc. cbn [fst snd heap errorPool captures deprecations].
  rewrite captureStackTrace_snoc.
  set (o := defineProperty "stack" _ false _).
  set (st1 := State (heap st ++ [o]) _ _ _).
  assert (deref st1 (VObject (length (heap st))) = Some o) as Ho by apply deref_snoc.
  assert (instanceof st1 (VObject (length (heap st)))
            (Constructor (if bool_decide (c < 500)%Z then Client else Server) c
               (toClassName (toIdentifier phrase)) (VString phrase)) = true) as Hinst.
  { unfold instanceof. rewrite Ho. by apply bool_decide_eq_true. }
  assert (read st1 (VObject (length (heap st))) "status" = VNumber (Int c)) as Hstatus.
  { unfold read. by rewrite Ho. }
  rewrite Hinst, Hstatus. cbn [negb orb strict_eq number_eq].
  rewrite bool_decide_eq_true_2 by done. cbn [negb].
  done.
Qed.


(** The argument loop on a status code followed by one more argument. *)
Lemma scan_code_and_message st c m props :
  scan st 0 [VNumber (Int c); VString m] (start props)
  = inr (Locals VUndefined (VString m) (VNumber (Int c)) (VObject props)).
Proof. reflexivity. Qed.


Lemma heap_alloc o st : heap (alloc o st).1 = heap st ++ [o].
Proof. done. Qed.

(** X4.  [createError(c, message)] for a 4xx or 5xx code with a reason phrase
    never takes an instance from the pool, whatever the pool holds: it builds
    a new instance of the constructor of [c], with [status] and [statusCode]
    equal to [c], [expose] equal to [c < 500], the class name as [name], and
    the given string as [message], the empty string included; the pool and
    the deprecation log stay as they were. *)
Theorem createError_with_message_builds_new_instance
    (c : Z) (phrase m : string) (st : state) :
  (400 ≤ c < 600)%Z →
  statuses !! c = Some phrase →
  let r := VObject (S (length (heap st))) in
  ∃ st',
    createError [VNumber (Int c); VString m] st = Return st' r
    ∧ errorPool st' = errorPool st
    ∧ deprecations st' = deprecations st
    ∧ read st' r "status" = VNumber (Int c)
    ∧ read st' r "statusCode" = VNumber (Int c)
    ∧ read st' r "expose" = VBoolean (bool_decide (c < 500)%Z)
    ∧ read st' r "message" = VString m
    ∧ read st' r "name" = VString (toClassName (toIdentifier phrase))
    ∧ isHttpError st' r = true.
Proof.
  intros Hc Hphrase r. subst r. rewrite createError_scan, scan_code_and_message.
  cbn [a_status]. rewrite resolve_status_inside, warn_non_error_inside by done.
  unfold build. cbn [a_err a_msg a_props truthy strict_eq negb andb].
  rewrite (slow_path_known_code c phrase) by done.
  rewrite heap_alloc, length_app. cbn [length]. rewrite Nat.add_1_r.
  set (st2 := State _ _ _ _).
  assert (copy_props (VObject (length (heap st))) (VObject (S (length (heap st)))) st2
          = st2) as ->.
  { unfold copy_props, keys, deref. subst st2. cbn [heap].
    rewrite <- app_assoc. by rewrite lookup_app_r, Nat.sub_diag. }
  assert (deref st2 (VObject (S (length (heap st))))
          = Some (built_instance c phrase (VString m)
                    (captures (alloc (Object ObjectPrototype [] NoStack) st).1))) as Ho.
  { subst st2. unfold deref. cbn [heap].
    rewrite lookup_app_r; rewrite length_app; cbn [length]; [|lia].
    by replace (S (length (heap st)) - (length (heap st) + 1)) with 0 by lia. }
  exists st2. unfold isHttpError, instanceof_HttpError, read. rewrite Ho.
  split_and!; try done.
  unfold built_instance. cbn. by destruct (bool_decide (c < 500)%Z).
Qed.


End KnownCode.

(** ** The factory on a code without a constructor, and on an error *)

Section GenericError.
Context `{Collaborators}.

Lemma resolve_constructor_other_class c :
  (100 ≤ c < 400)%Z → resolve_constructor (Int c) = None.
Proof.
  intros Hc. unfold resolve_constructor.
  rewrite createError_at_other_class by lia.
  rewrite codeClass_below_1000 by lia.
  rewrite !bool_decide_eq_false_2 by lia.
  apply createError_at_other_class. Z.div_mod_to_equations. lia.
Qed.

Lemma stamp_snoc h o status p c d :
  stamp (VObject (length h)) status (State (h ++ [o]) p c d)
  = State (h ++ [assign "status" (VNumber status)
                   (assign "statusCode" (VNumber status)
                      (assign "expose" (VBoolean (less_than status 500)) o))]) p c d.
Proof. unfold stamp. by rewrite !modify_snoc. Qed.

(** X6.  For a status code from 100 up to, not including, 400 that has a
    reason phrase, [createError(c)] and [createError(c, message)] log one
    deprecation warning and build a generic [Error], no [HttpError]: its
    [status] and [statusCode] are [c], its [expose] is [true], its [name] is
    the inherited [Error], and its [message] is the given string, or the
    reason phrase when no message was given or the empty string was. *)
Theorem createError_below_400_builds_generic_error
    (c : Z) (phrase : string) (message : option string) (st : state) :
  (100 ≤ c < 400)%Z →
  statuses !! c = Some phrase →
  phrase ≠ EmptyString →
  (message = None → errorPool st !! pretty c = None) →
  let arguments :=
    VNumber (Int c) :: match message with Some m => [VString m] | None => [] end in
  let r := VObject (S (length (heap st))) in
  ∃ st',
    createError arguments st = Return st' r
    ∧ deprecations st' = deprecations st ++ [non_error_warning]
    ∧ instanceof_Error st' r = true
    ∧ instanceof_HttpError st' r = false
    ∧ read st' r "status" = VNumber (Int c)
    ∧ read st' r "statusCode" = VNumber (Int c)
    ∧ read st' r "expose" = VBoolean true
    ∧ read st' r "name" = VString "Error"
    ∧ read st' r "message" =
      VString match message with
              | Some m => if String.eqb m EmptyString then phrase else m
              | None => phrase
              end
    ∧ isHttpError st' r = true.
Proof.
  intros Hc Hphrase Hne Hpool arguments r. subst arguments r.
  rewrite createError_scan.
  set (st1 := (alloc (Object ObjectPrototype [] NoStack) st).1).
  set (msg := match message with Some m => VString m | None => VUndefined end).
  assert (scan st1 0
            (VNumber (Int c) :: match message with Some m => [VString m] | None => [] end)
            (start (length (heap st)))
          = inr (Locals VUndefined msg (VNumber (Int c)) (VObject (length (heap st)))))
    as -> by (subst msg; by destruct message).
  cbn [a_status].
  assert (statuses_message (Int c) = VString phrase) as Hmsg.
  { unfold statuses_message. by rewrite Hphrase. }
  assert (truthy (VString phrase) = true) as Htruthy.
  { cbn [truthy]. apply eqb_false_ne in Hne. by rewrite Hne. }
  assert (resolve_status (VNumber (Int c)) = Int c) as ->.
  { unfold resolve_status. by rewrite Hmsg, Htruthy. }
  assert (warn_non_error (VNumber (Int c)) st1 = deprecate non_error_warning st1) as ->.
  { unfold warn_non_error, less_than. by rewrite bool_decide_eq_true_2 by lia. }
  unfold build. cbn [a_err a_msg a_props truthy negb andb].
  assert (keys (deprecate non_error_warning st1) (VObject (length (heap st))) = [])
    as Hkeys.
  { unfold keys, deref, deprecate. subst st1. unfold alloc. cbn [heap fst].
    by rewrite lookup_app_r, Nat.sub_diag. }
  rewrite Hkeys.
  assert ((if negb (negb (strict_eq msg VUndefined)) && negb false
           then fast_path (Int c) (deprecate non_error_warning st1) else None) = None)
    as ->.
  { subst msg. destruct message as [m|]; [done|]. cbn [strict_eq negb andb].
    unfold fast_path, deprecate. subst st1. unfold alloc.
    cbn [fst errorPool number_to_String]. by rewrite Hpool. }
  unfold slow_path. rewrite resolve_constructor_other_class by done.
  cbn [a_err a_msg a_props truthy negb]. rewrite Hmsg.
  unfold new_Error, alloc. cbn [fst snd heap errorPool captures deprecations deprecate].
  rewrite captureStackTrace_snoc.
  set (h := heap st1). subst st1. cbn [alloc fst errorPool captures deprecations].
  rewrite stamp_snoc.
  set (o := assign "status" _ _). set (st2 := State (h ++ [o]) _ _ _).
  assert (length h = S (length (heap st))) as Hlen
    by (subst h; rewrite heap_alloc, length_app; simpl; lia).
  assert (copy_props (VObject (length (heap st))) (VObject (length h)) st2 = st2) as ->.
  { unfold copy_props, keys, deref. subst st2 h. cbn [heap].
    rewrite heap_alloc, <- app_assoc. by rewrite lookup_app_r, Nat.sub_diag. }
  rewrite <- Hlen.
  assert (deref st2 (VObject (length h)) = Some o) as Ho by apply deref_snoc.
  exists st2.
  unfold isHttpError, instanceof_HttpError, instanceof_Error, read. rewrite Ho.
  assert (less_than (Int c) 500 = true) as Hlt
    by (unfold less_than; by rewrite bool_decide_eq_true_2 by lia).
  subst o msg. rewrite Hlt.
  destruct message as [m|]; [destruct (String.eqb m EmptyString) eqn:Em|].
  - unfold logical_or. cbn [truthy]. rewrite Em. cbn [negb].
    split_and!; try done. cbn. by rewrite bool_decide_eq_true_2.
  - unfold logical_or. cbn [truthy]. rewrite Em. cbn [negb].
    split_and!; try done. cbn. by rewrite bool_decide_eq_true_2.
  - split_and!; try done. cbn. by rewrite bool_decide_eq_true_2.
Qed.

(** X7.  [createError(err)] and [createError(n, err)] on a generic [Error]
    (one whose prototype is [Error.prototype]) return that very object, not a
    copy, and build nothing: no stack is captured and its own [stack] and
    [message] stay as they were, the pool is not touched.  The object is
    stamped with the status [err.status || err.statusCode || n] (500 in place
    of [n] when no number leads), passed through the fallback of lines 96-99:
    [status] and [statusCode] become that status, [expose] whether it is
    below 500.  An error with neither [status] nor [statusCode] and no leading
    number gets 500 and is not exposed. *)
Theorem createError_adopts_generic_error
    (leading : option number) (st : state) (e : loc) (o : object) :
  heap st !! e = Some o →
  o_proto o = ErrorPrototype →
  let arguments :=
    match leading with Some n => [VNumber n; VObject e] | None => [VObject e] end in
  let status :=
    resolve_status
      (logical_or (logical_or (get o "status") (get o "statusCode"))
         (VNumber (default (Int 500) leading))) in
  ∃ st',
    createError arguments st = Return st' (VObject e)
    ∧ read st' (VObject e) "status" = VNumber status
    ∧ read st' (VObject e) "statusCode" = VNumber status
    ∧ read st' (VObject e) "expose" = VBoolean (less_than status 500)
    ∧ read st' (VObject e) "message" = get o "message"
    ∧ stack_at st' e = Some (o_stack o)
    ∧ instanceof_HttpError st' (VObject e) = false
    ∧ captures st' = captures st
    ∧ errorPool st' = errorPool st
    ∧ (leading = None → truthy (get o "status") = false →
       truthy (get o "statusCode") = false → status = Int 500).
Proof.
  intros He Hproto arguments status.
  set (st1 := (alloc (Object ObjectPrototype [] NoStack) st).1).
  assert (heap st1 !! e = Some o) as He1.
  { subst st1. rewrite heap_alloc. by apply lookup_app_l_Some. }
  assert (instanceof_Error st1 (VObject e) = true) as HiE.
  { unfold instanceof_Error, deref, is_Error. by rewrite He1, Hproto. }
  set (sv := logical_or (logical_or (get o "status") (get o "statusCode"))
               (VNumber (default (Int 500) leading))).
  assert (scan st1 0 arguments (start (length (heap st)))
          = inr (Locals (VObject e) VUndefined sv (VObject (length (heap st))))) as Hscan.
  { subst arguments sv. destruct leading as [n|]; cbn [scan typeof].
    - simpl (String.eqb "number" "object" && _).
      cbn [andb String.eqb Ascii.eqb Bool.eqb bool_decide decide_rel].
      rewrite HiE. cbn [andb a_err a_msg a_props a_status].
      unfold read, deref. by rewrite He1.
    - cbn [andb String.eqb Ascii.eqb Bool.eqb]. rewrite HiE.
      cbn [andb a_err a_msg a_props a_status start].
      unfold read, deref. by rewrite He1. }
  rewrite createError_scan. fold st1. rewrite Hscan. cbn [a_status].
  change (resolve_status sv) with status.
  set (st2 := warn_non_error sv st1).
  assert (heap st2 = heap st1) as Hheap by apply heap_warn_non_error.
  unfold build. cbn [a_err a_msg a_props truthy negb andb].
  unfold slow_path. cbn [a_err a_msg a_props truthy negb].
  assert (deref st2 (VObject e) = Some o) as He2.
  { unfold deref. by rewrite Hheap. }
  assert (match resolve_constructor status with
          | Some C =>
              negb (instanceof st2 (VObject e) C)
              || negb (strict_eq (read st2 (VObject e) "status") (VNumber status))
          | None => true
          end = true) as ->.
  { destruct (resolve_constructor status) as [C|]; [|done].
    unfold instanceof. rewrite He2, Hproto.
    by rewrite bool_decide_eq_false_2. }
  set (st3 := stamp (VObject e) status st2).
  assert (copy_props (VObject (length (heap st))) (VObject e) st3 = st3) as ->.
  { unfold copy_props, keys.
    assert (deref st3 (VObject (length (heap st)))
            = Some (Object ObjectPrototype [] NoStack)) as ->; [|done].
    subst st3. rewrite stamp_deref_other.
    2:{ intros [= ->]. apply lookup_lt_Some in He. lia. }
    unfold deref. rewrite Hheap. subst st1. rewrite heap_alloc.
    by rewrite lookup_app_r, Nat.sub_diag. }
  destruct (stamp_reads (VObject e) status st2 o He2) as (Hs1 & Hs2 & Hs3 & o' & Ho' & Hp').
  exists st3. split_and!; try done.
  - subst st3. unfold stamp, read. rewrite !deref_modify_eq, He2.
    cbn [fmap option_fmap option_map]. by rewrite !get_assign_ne.
  - subst st3. unfold stack_at.
    change (o_stack <$> deref (stamp (VObject e) status st2) (VObject e)
            = Some (o_stack o)).
    unfold stamp. rewrite !deref_modify_eq, He2. done.
  - unfold instanceof_HttpError, is_HttpError. fold st3 in Ho'.
    by rewrite Ho', Hp', Hproto.
  - subst st3. rewrite stamp_captures. subst st2.
    unfold warn_non_error. destruct sv as [| | |n| | | | |]; try done.
    by destruct (_ || _).
  - subst st3. rewrite stamp_errorPool. subst st2.
    by rewrite warn_non_error_errorPool.
  - intros -> H1 H2. subst status. unfold logical_or. rewrite H1, H2.
    cbn [default]. apply resolve_status_inside. lia.
Qed.

End GenericError.

(** ** Several messages, several bags *)

(** The argument loop from a position past the first does not look at the
    position any more, and what it accepts there it accepts one place
    earlier. *)
Lemma scan_one_place_earlier st args : ∀ i a r,
  scan st (S i) args a = inr r → scan st i args a = inr r.
Proof.
  induction args as [|arg rest IH]; intros i a r Hscan; [done|].
  cbn [scan] in *.
  destruct (String.eqb (typeof arg) "object" && instanceof_Error st arg); [by apply IH|].
  rewrite (bool_decide_eq_false_2 (S i = 0)) in Hscan by lia.
  rewrite andb_false_r in Hscan.
  destruct (String.eqb (typeof arg) "number") eqn:E.
  { apply String.eqb_eq in E. by rewrite E in Hscan. }
  cbn [andb].
  destruct (String.eqb (typeof arg) "string"); [by apply IH|].
  destruct (String.eqb (typeof arg) "object"); [by apply IH|done].
Qed.

Lemma scan_app st l1 : ∀ l2 i a,
  scan st i (l1 ++ l2) a =
  match scan st i l1 a with
  | inl message => inl message
  | inr a1 => scan st (i + length l1) l2 a1
  end.
Proof.
  induction l1 as [|arg rest IH]; intros l2 i a.
  { simpl. by rewrite Nat.add_0_r. }
  cbn [scan app length]. replace (i + S (length rest)) with (S i + length rest) by lia.
  destruct (String.eqb (typeof arg) "object" && instanceof_Error st arg); [apply IH|].
  destruct (String.eqb (typeof arg) "number" && bool_decide (i = 0)); [apply IH|].
  destruct (String.eqb (typeof arg) "string"); [apply IH|].
  destruct (String.eqb (typeof arg) "object"); [apply IH|done].
Qed.

(** A later string replaces the message found so far, a later bag the bag
    found so far. *)
Lemma scan_message_replaced st args : ∀ i a msg,
  (∃ y, y ∈ args ∧ typeof y = "string") →
  scan st i args (Locals (a_err a) msg (a_status a) (a_props a)) = scan st i args a.
Proof.
  induction args as [|arg rest IH]; intros i a msg (y & Hy & Hty).
  { by apply elem_of_nil in Hy. }
  cbn [scan a_err a_msg a_status a_props].
  destruct (String.eqb (typeof arg) "string") eqn:Es.
  { apply String.eqb_eq in Es. rewrite Es. done. }
  assert (∃ y, y ∈ rest ∧ typeof y = "string") as Hrest.
  { apply elem_of_cons in Hy as [->|Hy]; [|by eauto].
    rewrite Hty in Es. done. }
  destruct (String.eqb (typeof arg) "object" && instanceof_Error st arg).
  { rewrite <- (IH (S i) (Locals arg (a_msg a) _ (a_props a)) msg Hrest). done. }
  destruct (String.eqb (typeof arg) "number" && bool_decide (i = 0)).
  { rewrite <- (IH (S i) (Locals (a_err a) (a_msg a) arg (a_props a)) msg Hrest). done. }
  destruct (String.eqb (typeof arg) "object"); [|done].
  rewrite <- (IH (S i) (Locals (a_err a) (a_msg a) (a_status a) arg) msg Hrest). done.
Qed.

Lemma scan_bag_replaced st args : ∀ i a props,
  (∃ y, y ∈ args ∧ typeof y = "object" ∧ instanceof_Error st y = false) →
  scan st i args (Locals (a_err a) (a_msg a) (a_status a) props) = scan st i args a.
Proof.
  induction args as [|arg rest IH]; intros i a props (y & Hy & Hty & HyE).
  { by apply elem_of_nil in Hy. }
  cbn [scan a_err a_msg a_status a_props].
  destruct (String.eqb (typeof arg) "object" && instanceof_Error st arg) eqn:E1.
  { assert (∃ y, y ∈ rest ∧ typeof y = "object" ∧ instanceof_Error st y = false)
      as Hrest.
    { apply elem_of_cons in Hy as [->|Hy]; [|by eauto].
      rewrite Hty, HyE in E1. done. }
    rewrite <- (IH (S i) (Locals arg (a_msg a) _ (a_props a)) props Hrest). done. }
  destruct (String.eqb (typeof arg) "number" && bool_decide (i = 0)) eqn:E2.
  { assert (∃ y, y ∈ rest ∧ typeof y = "object" ∧ instanceof_Error st y = false)
      as Hrest.
    { apply elem_of_cons in Hy as [->|Hy]; [|by eauto].
      rewrite Hty in E2. done. }
    rewrite <- (IH (S i) (Locals (a_err a) (a_msg a) arg (a_props a)) props Hrest).
    done. }
  destruct (String.eqb (typeof arg) "string") eqn:E3.
  { assert (∃ y, y ∈ rest ∧ typeof y = "object" ∧ instanceof_Error st y = false)
      as Hrest.
    { apply elem_of_cons in Hy as [->|Hy]; [|by eauto].
      rewrite Hty in E3. done. }
    rewrite <- (IH (S i) (Locals (a_err a) arg (a_status a) (a_props a)) props Hrest).
    done. }
  destruct (String.eqb (typeof arg) "object"); done.
Qed.

Section SeveralArguments.
Context `{Collaborators}.

(** A call that returns, returns the same without an argument that the loop
    assigns to a variable which a later argument assigns again. *)
Lemma createError_without_replaced (before after : list value) (x : value)
    (st st' : state) (r : value) :
  (∀ st1 i a, ∃ a',
     scan st1 i [x] a = inr a'
     ∧ scan st1 (S i) after a' = scan st1 (S i) after a) →
  createError (before ++ x :: after) st = Return st' r →
  createError (before ++ after) st = Return st' r.
Proof.
  intros Hx. rewrite !createError_scan.
  set (st1 := (alloc (Object ObjectPrototype [] NoStack) st).1).
  rewrite !scan_app.
  destruct (scan st1 0 before (start (length (heap st)))) as [m|a1]; [done|].
  change (x :: after) with ([x] ++ after). rewrite scan_app.
  destruct (Hx st1 (0 + length before) a1) as (a' & -> & Hafter).
  cbn [length]. rewrite Nat.add_1_r, Hafter.
  destruct (scan st1 (S (0 + length before)) after a1) as [m|a] eqn:Hscan; [done|].
  apply scan_one_place_earlier in Hscan. by rewrite Hscan.
Qed.

(** X8.  Of several string arguments only the last is the message: when a
    call that has a string argument followed, somewhere later, by another
    string returns, the call without the earlier string returns the same
    value and leaves the same state. *)
Theorem createError_keeps_last_message_only (before after : list value) (m : string)
    (st st' : state) (r : value) :
  (∃ y, y ∈ after ∧ typeof y = "string") →
  createError (before ++ VString m :: after) st = Return st' r →
  createError (before ++ after) st = Return st' r.
Proof.
  intros Hlater. apply createError_without_replaced.
  intros st1 i a. eexists. split; [reflexivity|].
  by apply (scan_message_replaced st1 after (S i) a (VString m)).
Qed.

(** X9.  Property bags are not merged: of several bags (objects that are no
    [Error], or [null]) only the last is copied.  When a call that has a bag
    followed, somewhere later, by another bag returns, the call without the
    earlier bag returns the same value and leaves the same state, so no key
    of the earlier bag reaches the result. *)
Theorem createError_keeps_last_bag_only (before after : list value) (bag : value)
    (st st' : state) (r : value) :
  typeof bag = "object" →
  instanceof_Error st bag = false →
  (∃ y, y ∈ after ∧ typeof y = "object" ∧ instanceof_Error st y = false) →
  createError (before ++ bag :: after) st = Return st' r →
  createError (before ++ after) st = Return st' r.
Proof.
  intros Hty HbE (y & Hy & Hyty & HyE) Hc.
  assert (∀ v, instanceof_Error (alloc (Object ObjectPrototype [] NoStack) st).1 v
               = instanceof_Error st v) as Halloc
    by (intros v; by apply instanceof_Error_alloc).
  revert Hc. rewrite !createError_scan.
  set (st1 := (alloc (Object ObjectPrototype [] NoStack) st).1) in *.
  rewrite !scan_app.
  destruct (scan st1 0 before (start (length (heap st)))) as [msg|a1]; [done|].
  cbn [scan]. rewrite Hty, Halloc, HbE. cbn [String.eqb Ascii.eqb Bool.eqb andb].
  rewrite (scan_bag_replaced st1 after _ a1 bag).
  2:{ exists y. by rewrite Halloc. }
  destruct (scan st1 (S (0 + length before)) after a1) as [msg|a] eqn:Hscan; [done|].
  apply scan_one_place_earlier in Hscan. by rewrite Hscan.
Qed.

End SeveralArguments.

(** ** Release and re-acquisition *)

Lemma object_eq_or_not (l : loc) (v : value) : VObject l = v ∨ VObject l ≠ v.
Proof.
  destruct v as [| | | | | | | |l']; try (by right).
  destruct (decide (l = l')) as [->|Hne]; [by left|right; congruence].
Qed.

Lemma kept_ne key k : kept key = false → kept k = true → key ≠ k.
Proof. intros Hkey Hk ->. congruence. Qed.

Lemma clear_custom_invariant (P : state → Prop) err st :
  P st →
  (∀ st1 key, kept key = false → P st1 →
              P (modify (VObject err) (delete_property key) st1)) →
  P (clear_custom err st).
Proof.
  intros H0 Hstep. unfold clear_custom. generalize (keys st (VObject err)). intros ks.
  apply (foldl_invariant P); [done|].
  intros st1 key HP. destruct (kept key) eqn:E; [done|]. by apply Hstep.
Qed.

(** The loop of lines 152-157 leaves the five kept keys, the prototype, and
    every other object as they were. *)
Lemma clear_custom_read_kept err st v k :
  kept k = true → read (clear_custom err st) v k = read st v k.
Proof.
  intros Hk. apply (clear_custom_invariant (λ st', read st' v k = read st v k)); [done|].
  intros st1 key Hkey <-. unfold read.
  destruct (object_eq_or_not err v) as [<-|Hne].
  - rewrite deref_modify_eq. destruct (deref st1 (VObject err)) as [o|]; [|done].
    cbn [fmap option_fmap option_map]. apply get_delete_ne. by apply kept_ne.
  - by rewrite deref_modify_other.
Qed.

Lemma clear_custom_proto err st v :
  o_proto <$> deref (clear_custom err st) v = o_proto <$> deref st v.
Proof.
  apply (clear_custom_invariant
           (λ st', o_proto <$> deref st' v = o_proto <$> deref st v)); [done|].
  intros st1 key Hkey <-.
  destruct (object_eq_or_not err v) as [<-|Hne].
  - rewrite deref_modify_eq. destruct (deref st1 (VObject err)) as [o|]; [|done].
    cbn [fmap option_fmap option_map]. by rewrite proto_delete.
  - by rewrite deref_modify_other.
Qed.

Lemma clear_custom_deref_other err st v :
  VObject err ≠ v → deref (clear_custom err st) v = deref st v.
Proof.
  intros Hne.
  apply (clear_custom_invariant (λ st', deref st' v = deref st v)); [done|].
  intros st1 key Hkey <-. by apply deref_modify_other.
Qed.

Lemma clear_custom_captures err st : captures (clear_custom err st) = captures st.
Proof.
  apply (clear_custom_invariant (λ st', captures st' = captures st)); [done|].
  intros st1 key Hkey <-. apply modify_captures.
Qed.

Lemma clear_custom_deprecations err st :
  deprecations (clear_custom err st) = deprecations st.
Proof.
  apply (clear_custom_invariant (λ st', deprecations st' = deprecations st)); [done|].
  intros st1 key Hkey <-. apply modify_deprecations.
Qed.

Lemma clear_custom_length err st :
  length (heap (clear_custom err st)) = length (heap st).
Proof.
  apply (clear_custom_invariant (λ st', length (heap st') = length (heap st))); [done|].
  intros st1 key Hkey <-. apply modify_length.
Qed.

(** [releaseError] changes the heap as [clear_custom] does, or not at all. *)
Lemma releaseError_heap err st :
  heap (releaseError err st) = heap (clear_custom err st)
  ∨ releaseError err st = st.
Proof.
  unfold releaseError. destruct (errorPool st !! _) as [pool|]; [|by right].
  case_bool_decide; [by left|by right].
Qed.

Lemma deref_heap st st' v : heap st' = heap st → deref st' v = deref st v.
Proof. unfold deref. by intros ->. Qed.

Lemma releaseError_read_kept err st v k :
  kept k = true → read (releaseError err st) v k = read st v k.
Proof.
  intros Hk. destruct (releaseError_heap err st) as [Hh| ->]; [|done].
  rewrite (read_deref _ _ _ _ (deref_heap _ _ v Hh)). by apply clear_custom_read_kept.
Qed.

Lemma release_status_releaseError a b st :
  release_status (releaseError a st) b = release_status st b.
Proof. unfold release_status. by rewrite !releaseError_read_kept. Qed.

Lemma releaseError_pushes err st pool :
  errorPool st !! to_String (release_status st err) = Some pool →
  length pool < poolSize →
  errorPool (releaseError err st)
  = <[to_String (release_status st err) := pool ++ [err]]> (errorPool st).
Proof.
  intros Hp Hlen. unfold releaseError. rewrite Hp, bool_decide_eq_true_2 by done.
  cbn [errorPool]. by rewrite clear_custom_errorPool.
Qed.

Section Reacquire.
Context `{Collaborators}.

(** Lines 101-116 for [createError(c)]: the top of the pool of [c]. *)
Lemma createError_pops c st pool top :
  (400 ≤ c < 600)%Z →
  errorPool st !! pretty c = Some (pool ++ [top]) →
  ∃ st',
    createError [VNumber (Int c)] st = Return st' (VObject top)
    ∧ errorPool st' = <[pretty c := pool]> (errorPool st).
Proof.
  intros Hc Hpool. rewrite createError_scan. unfold start.
  cbn [scan typeof a_status String.eqb Ascii.eqb Bool.eqb andb].
  rewrite bool_decide_eq_true_2 by done. cbn [a_status a_err a_msg a_props].
  rewrite resolve_status_inside, warn_non_error_inside by done.
  unfold build. cbn [a_err a_msg a_props truthy strict_eq negb andb].
  assert (keys (alloc (Object ObjectPrototype [] NoStack) st).1 (VObject (length (heap st)))
          = []) as ->.
  { unfold keys, alloc, deref. cbn [fst heap]. by rewrite lookup_app_r, Nat.sub_diag. }
  rewrite (fast_path_pop (Int c) _ pool top) by done.
  eexists. split; [done|]. by rewrite modify_errorPool.
Qed.

(** X10.  The pool of a status is a stack.  When two objects whose status is
    [c] are released one after the other into a slot with room for both, the
    next two calls [createError(c)] return these very objects, the one
    released last first, and the slot is then as it was before.  Nothing
    keeps an object from being released twice: with the same object in both
    places, both calls return it. *)
Theorem pool_is_last_in_first_out (c : Z) (st : state) (a b : loc) (pool : list loc) :
  (400 ≤ c < 600)%Z →
  errorPool st !! pretty c = Some pool →
  length pool + 2 ≤ poolSize →
  to_String (release_status st a) = pretty c →
  to_String (release_status st b) = pretty c →
  let st1 := releaseError b (releaseError a st) in
  errorPool st1 !! pretty c = Some (pool ++ [a; b])
  ∧ ∃ st2 st3,
      createError [VNumber (Int c)] st1 = Return st2 (VObject b)
      ∧ createError [VNumber (Int c)] st2 = Return st3 (VObject a)
      ∧ errorPool st3 = errorPool st.
Proof.
  intros Hc Hpool Hlen Ha Hb st1.
  assert (errorPool (releaseError a st) = <[pretty c := pool ++ [a]]> (errorPool st))
    as Hp1.
  { rewrite <- Ha. apply releaseError_pushes; [by rewrite Ha|lia]. }
  assert (errorPool st1 = <[pretty c := pool ++ [a; b]]> (errorPool st)) as Hp2.
  { subst st1. rewrite <- Hb at 1.
    rewrite <- (release_status_releaseError a b st).
    rewrite (releaseError_pushes b _ (pool ++ [a])).
    - rewrite release_status_releaseError, Hb, Hp1, insert_insert_eq.
      by rewrite <- app_assoc.
    - by rewrite release_status_releaseError, Hb, Hp1, lookup_insert_eq.
    - rewrite length_app. simpl. lia. }
  split; [by rewrite Hp2, lookup_insert_eq|].
  destruct (createError_pops c st1 (pool ++ [a]) b Hc) as (st2 & Hc2 & Hp3).
  { rewrite Hp2, lookup_insert_eq. by rewrite <- app_assoc. }
  destruct (createError_pops c st2 pool a Hc) as (st3 & Hc3 & Hp4).
  { by rewrite Hp3, lookup_insert_eq. }
  exists st2, st3. split_and!; [done|done|].
  rewrite Hp4, Hp3, Hp2, !insert_insert_eq. by apply insert_id.
Qed.

End Reacquire.

(** X11.  [releaseError] removes properties of the released object and
    nothing else: the object keeps its prototype and reads as before under
    [status], [statusCode], [expose], [message] and [name], so it is an
    [Error] and passes [isHttpError] exactly when it did before; every other
    object of the heap is left as it was; no stack is captured and no warning
    logged. *)
Theorem releaseError_keeps_the_kept_keys (err : loc) (st : state) :
  let st' := releaseError err st in
  (∀ k, kept k = true → read st' (VObject err) k = read st (VObject err) k)
  ∧ instanceof_Error st' (VObject err) = instanceof_Error st (VObject err)
  ∧ instanceof_HttpError st' (VObject err) = instanceof_HttpError st (VObject err)
  ∧ isHttpError st' (VObject err) = isHttpError st (VObject err)
  ∧ (∀ l, l ≠ err → heap st' !! l = heap st !! l)
  ∧ length (heap st') = length (heap st)
  ∧ captures st' = captures st
  ∧ deprecations st' = deprecations st.
Proof.
  intros st'.
  assert (∀ k, kept k = true → read st' (VObject err) k = read st (VObject err) k)
    as Hread by (intros k Hk; by apply releaseError_read_kept).
  assert (o_proto <$> deref st' (VObject err) = o_proto <$> deref st (VObject err))
    as Hproto.
  { subst st'. destruct (releaseError_heap err st) as [Hh| ->]; [|done].
    rewrite (deref_heap _ _ _ Hh). apply clear_custom_proto. }
  destruct (instanceof_Error_by_proto _ _ _ _ Hproto) as [HiE HiH].
  split_and!; try done.
  - unfold isHttpError. by rewrite HiE, HiH, !Hread.
  - intros l Hne. subst st'. destruct (releaseError_heap err st) as [Hh| ->]; [|done].
    rewrite Hh. apply (clear_custom_deref_other err st (VObject l)). congruence.
  - subst st'. destruct (releaseError_heap err st) as [Hh| ->]; [|done].
    rewrite Hh. apply clear_custom_length.
  - subst st'. unfold releaseError. destruct (errorPool st !! _) as [pool|]; [|done].
    case_bool_decide; [|done]. cbn [captures]. apply clear_custom_captures.
  - subst st'. unfold releaseError. destruct (errorPool st !! _) as [pool|]; [|done].
    case_bool_decide; [|done]. cbn [deprecations]. apply clear_custom_deprecations.
Qed.

(** ** What a call of the factory changes *)

Section Footprint.
Context `{Collaborators}.

Lemma captureStackTrace_deref_other v v' st :
  v ≠ v' → deref (captureStackTrace v st) v' = deref st v'.
Proof.
  intros Hne. unfold captureStackTrace.
  etransitivity; [|by apply (deref_modify_other v v')]. done.
Qed.

(** Lines 119-141 write to the object they return and to no other. *)
Lemma slow_path_deref_other a status st st' r v :
  slow_path a status st = (st', r) →
  is_Some (deref st v) → r ≠ v →
  deref st' v = deref st v.
Proof.
  unfold slow_path. intros Hslow Hv Hne.
  destruct (negb (truthy (a_err a))).
  - assert (∀ o, deref (State (heap st ++ [o]) (errorPool st) (captures st)
                          (deprecations st)) v = deref st v) as Hold.
    { intros o. apply (deref_alloc_old o st v Hv). }
    destruct (resolve_constructor status) as [C|].
    + rewrite new_eq in Hslow. unfold alloc in Hslow. cbn [fst snd] in Hslow.
      destruct (negb _ || negb _); injection Hslow as <- <-;
        rewrite copy_props_deref_other, ?stamp_deref_other,
          captureStackTrace_deref_other by done; apply Hold.
    + unfold new_Error, alloc in Hslow. cbn [fst snd] in Hslow.
      injection Hslow as <- <-.
      rewrite copy_props_deref_other, stamp_deref_other,
        captureStackTrace_deref_other by done. apply Hold.
  - destruct (match resolve_constructor status with Some _ => _ | None => _ end);
      injection Hslow as <- <-;
      by rewrite copy_props_deref_other, ?stamp_deref_other by done.
Qed.

Lemma fast_path_deref_other status st st' r v :
  fast_path status st = Some (st', r) → r ≠ v → deref st' v = deref st v.
Proof.
  unfold fast_path. intros Hf Hne.
  destruct (errorPool st !! number_to_String status) as [pool|]; [|done].
  destruct (last pool) as [pooled|]; [|done].
  injection Hf as <- <-. by rewrite deref_modify_other.
Qed.

(** X12.  A call of [createError] that returns writes to the object it
    returns and to no other: every object that was on the heap before the
    call, a property bag of the call included, is afterwards as it was,
    unless it is the returned one (an adopted error, or an instance from the
    pool). *)
Theorem createError_writes_to_its_result_only (arguments : list value)
    (st st' : state) (r : value) :
  createError arguments st = Return st' r →
  ∀ l o, heap st !! l = Some o → r ≠ VObject l → heap st' !! l = Some o.
Proof.
  intros Hc l o Hl Hne.
  apply createError_inv in Hc as (a & st2 & Hd & _ & _ & _ & _ & _ & _ & Hpath).
  assert (deref st2 (VObject l) = Some o) as Hl2.
  { rewrite Hd; [done|]. unfold deref. by rewrite Hl. }
  change (deref st' (VObject l) = Some o). rewrite <- Hl2.
  destruct Hpath as [Hf|Hslow].
  - by apply (fast_path_deref_other _ _ _ _ _ Hf).
  - apply (slow_path_deref_other _ _ _ _ _ _ Hslow); [|done]. by rewrite Hl2.
Qed.

(** The own [stack] of the object at [l] is a stored value that is not
    enumerable. *)
Lemma stored_stack_assign (l : loc) v k x st :
  (∃ s, stack_at st l = Some (StackValue s false)) →
  ∃ s, stack_at (modify v (assign k x) st) l = Some (StackValue s false).
Proof.
  intros [s Hs]. unfold stack_at in *.
  change (heap (modify v (assign k x) st) !! l)
    with (deref (modify v (assign k x) st) (VObject l)).
  change (heap st !! l) with (deref st (VObject l)) in Hs.
  destruct (object_eq_or_not l v) as [<-|Hne].
  - rewrite deref_modify_eq. destruct (deref st (VObject l)) as [o|]; [|done].
    cbn [fmap option_fmap option_map] in *. injection Hs as Hs.
    unfold assign. destruct (is_stack k); cbn [o_stack]; rewrite ?Hs; eauto.
  - rewrite deref_modify_other by done. eauto.
Qed.

Lemma stored_stack_stamp (l : loc) v status st :
  (∃ s, stack_at st l = Some (StackValue s false)) →
  ∃ s, stack_at (stamp v status st) l = Some (StackValue s false).
Proof. intros Hs. unfold stamp. by do 3 apply stored_stack_assign. Qed.

Lemma stored_stack_copy_props (l : loc) props v st :
  (∃ s, stack_at st l = Some (StackValue s false)) →
  ∃ s, stack_at (copy_props props v st) l = Some (StackValue s false).
Proof.
  intros Hs. unfold copy_props. generalize (keys st props). intros ks.
  apply (foldl_invariant (λ st', ∃ s, stack_at st' l = Some (StackValue s false)));
    [done|].
  intros st1 key Hs1. destruct (_ && _); [|done]. by apply stored_stack_assign.
Qed.

(** Lines 121-127: the slow path captures once when it builds, and not when
    it was given an error. *)
Lemma slow_path_captures a status st st' r :
  slow_path a status st = (st', r) →
  if truthy (a_err a)
  then captures st' = captures st ∧ r = a_err a
  else captures st' = S (captures st)
       ∧ r = VObject (length (heap st))
       ∧ ∃ s, stack_at st' (length (heap st)) = Some (StackValue s false).
Proof.
  unfold slow_path. intros Hslow.
  destruct (truthy (a_err a)); cbn [negb] in Hslow.
  - destruct (match resolve_constructor status with Some _ => _ | None => _ end);
      injection Hslow as <- <-;
      by rewrite copy_props_captures, ?stamp_captures.
  - assert (∀ o, ∃ s,
      stack_at (captureStackTrace (VObject (length (heap st)))
                  (State (heap st ++ [o]) (errorPool st) (captures st) (deprecations st)))
        (length (heap st)) = Some (StackValue s false)) as Hstored.
    { intros o. rewrite captureStackTrace_snoc. unfold stack_at. cbn [heap].
      rewrite lookup_app_r, Nat.sub_diag by done. cbn. eauto. }
    assert (∀ o, captures (captureStackTrace (VObject (length (heap st)))
                  (State (heap st ++ [o]) (errorPool st) (captures st) (deprecations st)))
                 = S (captures st)) as Hcap.
    { intros o. by rewrite captureStackTrace_snoc. }
    destruct (resolve_constructor status) as [C|].
    + rewrite new_eq in Hslow. unfold alloc in Hslow. cbn [fst snd] in Hslow.
      destruct (negb _ || negb _); injection Hslow as <- <-;
        rewrite copy_props_captures, ?stamp_captures, Hcap;
        (split_and!; [done|done|]);
        apply stored_stack_copy_props; try apply stored_stack_stamp; apply Hstored.
    + unfold new_Error, alloc in Hslow. cbn [fst snd] in Hslow.
      injection Hslow as <- <-.
      rewrite copy_props_captures, stamp_captures, Hcap.
      split_and!; [done|done|].
      apply stored_stack_copy_props, stored_stack_stamp, Hstored.
Qed.

Lemma captures_warn_non_error status st :
  captures (warn_non_error status st) = captures st.
Proof.
  unfold warn_non_error. destruct status as [| | |n| | | | |]; try done.
  by destruct (_ || _).
Qed.

(** X13.  A call of [createError] calls [Error.captureStackTrace] at most
    once, and exactly when it builds a new object.  When it returns one of
    its arguments (an adopted error) or an instance from the pool, there is
    no such call.  When it builds, the call of line 126 is made at once: the
    new object's [stack] is then a stored value, for an instance of a
    generated constructor too, whose lazy accessor it replaces, and a read of
    it captures nothing more. *)
Theorem createError_captures_when_it_builds (arguments : list value)
    (st st' : state) (r : value) :
  createError arguments st = Return st' r →
  (captures st' = captures st
   ∧ (r ∈ arguments
      ∨ ∃ key pool l, errorPool st !! key = Some (pool ++ [l]) ∧ r = VObject l))
  ∨ (captures st' = S (captures st)
     ∧ r = VObject (S (length (heap st)))
     ∧ ∃ s, stack_at st' (S (length (heap st))) = Some (StackValue s false)
            ∧ get_stack (S (length (heap st))) st' = (st', s)).
Proof.
  rewrite createError_scan. intros Hc.
  set (st1 := (alloc (Object ObjectPrototype [] NoStack) st).1) in *.
  destruct (scan st1 0 arguments (start (length (heap st)))) as [m|a] eqn:Hscan;
    [done|].
  apply scan_locals in Hscan as (He & _ & _). cbn [start a_err] in He.
  set (st2 := warn_non_error (a_status a) st1) in *.
  assert (captures st2 = captures st) as Hcap2.
  { subst st2. by rewrite captures_warn_non_error. }
  assert (length (heap st2) = S (length (heap st))) as Hlen2.
  { subst st2 st1. rewrite heap_warn_non_error, heap_alloc, length_app. simpl. lia. }
  unfold build in Hc.
  destruct (if _ && _ && _ then fast_path _ _ else None) as [[st3 pooled]|] eqn:Hf.
  - destruct (_ && _ && _); [|done]. injection Hc as <- <-.
    unfold fast_path in Hf.
    destruct (errorPool st2 !! _) as [pool|] eqn:Hp; [|done].
    destruct (last pool) as [top|] eqn:Hl; [|done].
    apply last_Some in Hl as [pool' ->]. injection Hf as <- <-.
    left. split; [by rewrite modify_captures|]. right.
    subst st2. rewrite warn_non_error_errorPool in Hp. eauto.
  - destruct (slow_path a _ st2) as [st3 err] eqn:Hslow. injection Hc as <- <-.
    apply slow_path_captures in Hslow.
    destruct He as [He|[Hin HiE]].
    + rewrite He in Hslow. cbn [truthy] in Hslow.
      destruct Hslow as (Hc3 & -> & s & Hs). rewrite Hlen2 in *.
      right. split_and!; [congruence|done|].
      exists s. split; [done|]. by apply (get_stack_stored _ _ _ false).
    + apply instanceof_Error_inv in HiE as (l & o & Hl & _ & _).
      rewrite Hl in Hslow. cbn [truthy] in Hslow. destruct Hslow as [Hc3 ->].
      left. split; [congruence|]. left. by rewrite <- Hl.
Qed.

End Footprint.

(** ** A code of a known class without a reason phrase; a constructor called
    directly *)

Section ClassConstructor.
Context `{Collaborators}.

(** X14.  For a status from 400 up to, not including, 600 that has no reason
    phrase, [createError(c)] and [createError(c, message)] build an instance
    of the constructor of the class of [c], 400 or 500, and stamp it: the
    result passes [instanceof] for that constructor and has its [name], its
    [status] and [statusCode] are [c] and its [expose] is [c < 500]; its
    [message] is the given string, or the reason phrase of the class code
    when none was given.  No warning is logged. *)
Theorem createError_unknown_code_takes_class_constructor
    (c : Z) (phrase : string) (message : option string) (st : state) :
  (400 ≤ c < 600)%Z →
  statuses !! c = None →
  statuses !! (if bool_decide (c < 500)%Z then 400 else 500)%Z = Some phrase →
  (message = None → errorPool st !! pretty c = None) →
  let arguments :=
    VNumber (Int c) :: match message with Some m => [VString m] | None => [] end in
  let C := Constructor (if bool_decide (c < 500)%Z then Client else Server)
             (if bool_decide (c < 500)%Z then 400 else 500)%Z
             (toClassName (toIdentifier phrase)) (VString phrase) in
  let r := VObject (S (length (heap st))) in
  ∃ st',
    createError arguments st = Return st' r
    ∧ resolve_constructor (Int c) = Some C
    ∧ instanceof st' r C = true
    ∧ read st' r "status" = VNumber (Int c)
    ∧ read st' r "statusCode" = VNumber (Int c)
    ∧ read st' r "expose" = VBoolean (bool_decide (c < 500)%Z)
    ∧ read st' r "name" = VString (toClassName (toIdentifier phrase))
    ∧ read st' r "message" = VString (default phrase message)
    ∧ isHttpError st' r = true
    ∧ deprecations st' = deprecations st.
Proof.
  intros Hc Hnone Hphrase Hpool arguments C r. subst arguments r.
  remember (bool_decide (c < 500)%Z) as below eqn:Hbelow. symmetry in Hbelow.
  set (k := (if below then 400 else 500)%Z) in *.
  assert (400 ≤ k < 600)%Z as Hk by (subst k; destruct below; lia).
  assert (bool_decide (k < 500)%Z = below) as Hkc by (subst k; by destruct below).
  assert (codeClass (Int c) = Int k) as Hclass.
  { subst k. destruct below.
    - apply bool_decide_eq_true in Hbelow. apply codeClass_4xx. lia.
    - apply bool_decide_eq_false in Hbelow. apply codeClass_5xx. lia. }
  assert (resolve_constructor (Int c) = Some C) as HC.
  { unfold resolve_constructor. rewrite createError_at_unknown by done.
    rewrite Hclass, (createError_at_known_code k phrase) by done. by rewrite Hkc. }
  rewrite createError_scan.
  set (st1 := (alloc (Object ObjectPrototype [] NoStack) st).1).
  set (msg := match message with Some m => VString m | None => VUndefined end).
  assert (scan st1 0
            (VNumber (Int c) :: match message with Some m => [VString m] | None => [] end)
            (start (length (heap st)))
          = inr (Locals VUndefined msg (VNumber (Int c)) (VObject (length (heap st)))))
    as -> by (subst msg; by destruct message).
  cbn [a_status]. rewrite resolve_status_inside, warn_non_error_inside by done.
  unfold build. cbn [a_err a_msg a_props truthy negb andb].
  assert (keys st1 (VObject (length (heap st))) = []) as ->.
  { unfold keys, deref. subst st1. unfold alloc. cbn [heap fst].
    by rewrite lookup_app_r, Nat.sub_diag. }
  assert ((if negb (negb (strict_eq msg VUndefined)) && negb false
           then fast_path (Int c) st1 else None) = None) as ->.
  { subst msg. destruct message as [m|]; [done|]. cbn [strict_eq negb andb].
    unfold fast_path. subst st1. unfold alloc.
    cbn [fst errorPool number_to_String]. by rewrite Hpool. }
  unfold slow_path. rewrite HC. cbn [a_err a_msg a_props truthy negb].
  rewrite new_eq. unfold alloc. cbn [fst snd heap errorPool captures deprecations].
  rewrite captureStackTrace_snoc.
  set (h := heap st1).
  set (o := defineProperty "stack" _ false _).
  set (st2 := State (h ++ [o]) _ _ _).
  assert (length h = S (length (heap st))) as Hlen
    by (subst h st1; rewrite heap_alloc, length_app; simpl; lia).
  assert (deref st2 (VObject (length h)) = Some o) as Ho by apply deref_snoc.
  assert (instanceof st2 (VObject (length h)) C = true) as ->.
  { unfold instanceof. rewrite Ho. by apply bool_decide_eq_true. }
  assert (c ≠ k) as Hck by (intros ->; congruence).
  assert (read st2 (VObject (length h)) "status" = VNumber (Int k)) as ->.
  { unfold read. by rewrite Ho. }
  cbn [negb orb strict_eq number_eq]. rewrite bool_decide_eq_false_2 by congruence.
  cbn [negb]. subst st2. rewrite stamp_snoc.
  set (o' := assign "status" _ _). set (st3 := State (h ++ [o']) _ _ _).
  assert (copy_props (VObject (length (heap st))) (VObject (length h)) st3 = st3) as ->.
  { unfold copy_props, keys, deref. subst st3 h st1. cbn [heap].
    rewrite heap_alloc, <- app_assoc. by rewrite lookup_app_r, Nat.sub_diag. }
  rewrite <- Hlen.
  assert (deref st3 (VObject (length h)) = Some o') as Ho' by apply deref_snoc.
  exists st3.
  unfold isHttpError, instanceof_HttpError, instanceof, read. rewrite Ho'.
  assert (less_than (Int c) 500 = below) as Hlt by done.
  subst o' o msg C. rewrite Hlt.
  split_and!; try done.
  - by apply bool_decide_eq_true.
  - cbn. by destruct message.
Qed.


End ClassConstructor.

(** ** The factory on a status code alone, and on nothing *)

Section Default.
Context `{Collaborators}.

(** X16.  With nothing in the pool of its status, [createError(c)] for a 4xx
    or 5xx code with a reason phrase, and [createError()] for 500, build a
    new instance of the constructor of that code: [status] and [statusCode]
    are the code, [expose] is whether it is below 500, [message] is the
    reason phrase and [name] the class name.  The pool and the deprecation
    log stay as they were. *)
Theorem createError_builds_default_instance
    (code : option Z) (phrase : string) (st : state) :
  let c := default 500%Z code in
  (400 ≤ c < 600)%Z →
  statuses !! c = Some phrase →
  errorPool st !! pretty c = None ∨ errorPool st !! pretty c = Some [] →
  let arguments := match code with Some c => [VNumber (Int c)] | None => [] end in
  let r := VObject (S (length (heap st))) in
  ∃ st',
    createError arguments st = Return st' r
    ∧ errorPool st' = errorPool st
    ∧ deprecations st' = deprecations st
    ∧ read st' r "status" = VNumber (Int c)
    ∧ read st' r "statusCode" = VNumber (Int c)
    ∧ read st' r "expose" = VBoolean (bool_decide (c < 500)%Z)
    ∧ read st' r "message" = VString phrase
    ∧ read st' r "name" = VString (toClassName (toIdentifier phrase))
    ∧ isHttpError st' r = true.
Proof.
  intros c Hc Hphrase Hpool arguments r. subst arguments r.
  rewrite createError_scan.
  set (st1 := (alloc (Object ObjectPrototype [] NoStack) st).1).
  assert (scan st1 0 match code with Some c => [VNumber (Int c)] | None => [] end
            (start (length (heap st)))
          = inr (Locals VUndefined VUndefined (VNumber (Int c))
                   (VObject (length (heap st))))) as ->.
  { subst c. by destruct code. }
  cbn [a_status]. rewrite resolve_status_inside, warn_non_error_inside by done.
  unfold build. cbn [a_err a_msg a_props truthy strict_eq negb andb].
  assert (keys st1 (VObject (length (heap st))) = []) as ->.
  { unfold keys, deref. subst st1. unfold alloc. cbn [heap fst].
    by rewrite lookup_app_r, Nat.sub_diag. }
  assert (fast_path (Int c) st1 = None) as ->.
  { unfold fast_path. subst st1. unfold alloc. cbn [fst errorPool number_to_String].
    by destruct Hpool as [-> | ->]. }
  rewrite (slow_path_known_code c phrase) by done.
  subst st1. rewrite heap_alloc, length_app. cbn [length]. rewrite Nat.add_1_r.
  set (st2 := State _ _ _ _).
  assert (copy_props (VObject (length (heap st))) (VObject (S (length (heap st)))) st2
          = st2) as ->.
  { unfold copy_props, keys, deref. subst st2. cbn [heap].
    rewrite <- app_assoc. by rewrite lookup_app_r, Nat.sub_diag. }
  assert (deref st2 (VObject (S (length (heap st))))
          = Some (built_instance c phrase VUndefined
                    (captures (alloc (Object ObjectPrototype [] NoStack) st).1))) as Ho.
  { subst st2. unfold deref. cbn [heap].
    rewrite lookup_app_r; rewrite length_app; cbn [length]; [|lia].
    by replace (S (length (heap st)) - (length (heap st) + 1)) with 0 by lia. }
  exists st2. unfold isHttpError, instanceof_HttpError, read. rewrite Ho.
  split_and!; try done.
  unfold built_instance. cbn. by destruct (bool_decide (c < 500)%Z).
Qed.

End Default.

(** [createError()] at module load: an [InternalServerError]. *)
Lemma createError_without_arguments_at_module_load :
  ∃ st',
    createError (H := node) [] initial_state = Return st' (VObject 1)
    ∧ read st' (VObject 1) "status" = VNumber (Int 500)
    ∧ read st' (VObject 1) "message" = VString "Internal Server Error"
    ∧ read st' (VObject 1) "name" = VString "InternalServerError".
Proof.
  destruct (createError_builds_default_instance (H := node)
              None "Internal Server Error" initial_state ltac:(simpl; lia) eq_refl
              (or_intror eq_refl))
    as (st' & Hc & _ & _ & Hs & _ & _ & Hm & Hn & _).
  exists st'. split_and!; [exact Hc|exact Hs|exact Hm|exact Hn].
Defined.

(** ** The theorems of this part at sample inputs *)

(** [createError(404, '')] at module load: a new instance with the empty
    message. *)
Lemma createError_with_message_at_404_empty :
  ∃ st',
    createError (H := node) [VNumber (Int 404); VString EmptyString] initial_state
      = Return st' (VObject 1)
    ∧ read st' (VObject 1) "message" = VString EmptyString
    ∧ read st' (VObject 1) "name" = VString "NotFoundError".
Proof.
  destruct (createError_with_message_builds_new_instance (H := node)
              404 "Not Found" EmptyString initial_state ltac:(lia) eq_refl)
    as (st' & Hc & _ & _ & _ & _ & _ & Hm & Hn & _).
  exists st'. split_and!; [exact Hc|exact Hm|exact Hn].
Defined.


(** [createError(200)] at module load: a generic error, exposed, and one
    warning. *)
Lemma createError_below_400_at_200 :
  ∃ st',
    createError (H := node) [VNumber (Int 200)] initial_state = Return st' (VObject 1)
    ∧ deprecations st' = [non_error_warning]
    ∧ read st' (VObject 1) "expose" = VBoolean true
    ∧ read st' (VObject 1) "message" = VString "OK".
Proof.
  destruct (createError_below_400_builds_generic_error (H := node)
              200 "OK" None initial_state ltac:(lia) eq_refl ltac:(discriminate)
              (λ _, eq_refl))
    as (st' & Hc & Hd & _ & _ & _ & _ & He & _ & Hm & _).
  exists st'. split_and!; [exact Hc|exact Hd|exact He|exact Hm].
Defined.

(** [createError(new Error('boom'))]: the error itself, with status 500. *)
Lemma createError_adopts_plain_error :
  let st := (alloc (plain_error "boom") initial_state).1 in
  ∃ st',
    createError (H := node) [VObject 0] st = Return st' (VObject 0)
    ∧ read st' (VObject 0) "status" = VNumber (Int 500)
    ∧ read st' (VObject 0) "expose" = VBoolean false
    ∧ read st' (VObject 0) "message" = VString "boom"
    ∧ captures st' = 0.
Proof.
  intros st.
  destruct (createError_adopts_generic_error (H := node) None st 0
              (plain_error "boom") eq_refl eq_refl)
    as (st' & Hc & Hs & _ & He & Hm & _ & _ & Hcap & _ & _).
  exists st'. split_and!; [exact Hc|exact Hs|exact He|exact Hm|exact Hcap].
Defined.

(** [createError(404, 'a', 'b')] returns what [createError(404, 'b')]
    returns. *)
Lemma createError_keeps_last_message_at_404_a_b :
  createError (H := node) [VNumber (Int 404); VString "b"] initial_state
  = createError (H := node) [VNumber (Int 404); VString "a"; VString "b"] initial_state.
Proof.
  set (c := createError (H := node)
              [VNumber (Int 404); VString "a"; VString "b"] initial_state).
  assert (c = Return (returned c).1 (returned c).2) as Hc by (vm_compute; reflexivity).
  rewrite Hc.
  apply (createError_keeps_last_message_only (H := node)
           [VNumber (Int 404)] [VString "b"] "a").
  - exists (VString "b"). split; [apply elem_of_cons; by left|reflexivity].
  - exact Hc.
Defined.

(** [createError(404, {a: 1}, {b: 2})] returns what [createError(404, {b:
    2})] returns: [a] is not copied. *)
Lemma createError_keeps_last_bag_at_404_a_b :
  let st := (alloc (bag [("b", VNumber (Int 2))])
               (alloc (bag [("a", VNumber (Int 1))]) initial_state).1).1 in
  createError (H := node) [VNumber (Int 404); VObject 1] st
  = createError (H := node) [VNumber (Int 404); VObject 0; VObject 1] st.
Proof.
  intros st.
  set (c := createError (H := node) [VNumber (Int 404); VObject 0; VObject 1] st).
  assert (c = Return (returned c).1 (returned c).2) as Hc by (vm_compute; reflexivity).
  rewrite Hc.
  apply (createError_keeps_last_bag_only (H := node)
           [VNumber (Int 404)] [VObject 1] (VObject 0)).
  - reflexivity.
  - reflexivity.
  - exists (VObject 1). split_and!; [apply elem_of_cons; by left|reflexivity|reflexivity].
  - exact Hc.
Defined.

(** The instance of [createError(404)] released twice: the next two calls
    [createError(404)] both return it. *)
Lemma pool_hands_out_twice_what_was_released_twice :
  let st := first_404.1 in
  let e := address first_404.2 in
  ∃ st2 st3,
    createError (H := node) [VNumber (Int 404)] (releaseError e (releaseError e st))
      = Return st2 (VObject e)
    ∧ createError (H := node) [VNumber (Int 404)] st2 = Return st3 (VObject e).
Proof.
  intros st e.
  destruct (pool_is_last_in_first_out (H := node) 404 st e e []
              ltac:(lia) ltac:(vm_compute; reflexivity)
              ltac:(unfold poolSize; simpl; lia)
              ltac:(vm_compute; reflexivity) ltac:(vm_compute; reflexivity))
    as (_ & st2 & st3 & H2 & H3 & _).
  exists st2, st3. split; [exact H2|exact H3].
Defined.

(** [createError(404, {id: 7})] leaves the bag as it was. *)
Lemma createError_leaves_the_bag_at_404_id :
  let st := with_bag [("id", VNumber (Int 7))] in
  let c := createError (H := node) [VNumber (Int 404); VObject 0] st in
  heap (returned c).1 !! 0 = Some (bag [("id", VNumber (Int 7))]).
Proof.
  intros st c.
  apply (createError_writes_to_its_result_only (H := node)
           [VNumber (Int 404); VObject 0] st (returned c).1 (returned c).2).
  - vm_compute. reflexivity.
  - reflexivity.
  - vm_compute. discriminate.
Defined.

(** [createError(404)] at module load captures once, at the call. *)
Lemma createError_captures_at_404 :
  captures first_404.1 = 1
  ∧ ∃ s, get_stack (H := node) 1 first_404.1 = (first_404.1, s).
Proof.
  destruct (createError_captures_when_it_builds (H := node)
              [VNumber (Int 404)] initial_state first_404.1 first_404.2
              ltac:(vm_compute; reflexivity))
    as [[Hc _]|(Hc & _ & s & _ & Hg)].
  - vm_compute in Hc. discriminate Hc.
  - split; [exact Hc|]. exists s. exact Hg.
Defined.

(** [createError(499)] at module load: a [BadRequestError] with status 499. *)
Lemma createError_unknown_code_at_499 :
  ∃ st',
    createError (H := node) [VNumber (Int 499)] initial_state = Return st' (VObject 1)
    ∧ read st' (VObject 1) "status" = VNumber (Int 499)
    ∧ read st' (VObject 1) "name" = VString "BadRequestError"
    ∧ read st' (VObject 1) "message" = VString "Bad Request".
Proof.
  destruct (createError_unknown_code_takes_class_constructor (H := node)
              499 "Bad Request" None initial_state ltac:(lia) eq_refl eq_refl
              (λ _, eq_refl))
    as (st' & Hc & _ & _ & Hs & _ & _ & Hn & Hm & _).
  exists st'. split_and!; [exact Hc|exact Hs|exact Hn|exact Hm].
Defined.
